(** * wcp-products-alert: the change-detection cycle

    A shallow embedding of the monitoring script ([fetchProducts],
    [loadCache], [saveCache], [notifyNewProduct], [checkForNewProducts],
    [sendToSlack]) and of the console-only [main.js], followed by the
    properties of one polling cycle.

    What lies outside the repository is an input of a cycle: the listing
    page as jsdom reads it, the image host, the bytes [crypto.randomBytes]
    returns, the wall clock and [config.json]; [path.extname] is a
    parameter.  A cycle is a computation on the two things the script
    owns on disk, the cache file and the images directory, that may throw
    and that records its effects in order.  Console output other than
    the notification line is not recorded, nor is the cleaning of the
    images directory at start-up. *)

From Stdlib Require Import List String Ascii Bool NArith Arith Lia.
From Stdlib Require Import Strings.Byte.
Import ListNotations.
Local Open Scope string_scope.
Local Open Scope list_scope.

(** ** Data model *)

(** An element of the array kept in [product_cache.json], and of the array
    [fetchProducts] builds.  [imageId], [imageUrl] and [cachedTime] are
    optional: entries written by [main.js] have no [imageUrl], entries of a
    first run have no [cachedTime], and hand-made entries may lack
    [imageId]. *)
Record product : Type := mkProduct {
  name : string;
  productPage : string;
  imageId : option string;
  imageUrl : option string;
  price : string;
  cachedTime : option string
}.

(** The four strings the selectors of the loop body read from one
    [.tt-product-listing .col-6] element: the trimmed text of the title
    anchor, its [href], the [data-mainimage] attribute and the trimmed text
    of the price span. *)
Record rawFields : Type := mkRaw {
  rawName : string;
  rawHref : string;
  rawMainImage : string;
  rawPrice : string
}.

(** [None] is an element in which one of the [querySelector] calls finds
    nothing: the property access on [null] throws a [TypeError]. *)
Definition element : Type := option rawFields.

(** Outcome of [fetch(URL)]: the promise rejects, or resolves to a response
    with its [ok] flag and the elements jsdom finds in its text. *)
Inductive listingResponse : Type :=
| Unreachable
| Response (ok : bool) (elements : list element).

Record slackConfig : Type := mkSlack {
  enableBot : option bool;
  token : option string;
  channelName : option string
}.

(** [config.json]; the [slack] section may be missing. *)
Record config : Type := mkConfig { slack : option slackConfig }.

(** The body of the [chat.postMessage] call with its bearer token. *)
Record slackMessage : Type := mkMessage {
  msgToken : option string;
  msgChannel : option string;
  msgName : string;
  msgPrice : string;
  msgLink : string;
  msgImageUrl : option string
}.

(** What is on disk at [CACHE_FILE]. *)
Inductive storeFile : Type :=
| Absent
| Holds (products : list product)
| Corrupt.

(** The files the script owns: the cache file and the images directory
    (file name, relative to [IMAGES_DIR], and content). *)
Record World : Type := mkWorld {
  cacheFile : storeFile;
  imagesDir : list (string * list byte)
}.

(** The inputs of one cycle. *)
Record Env : Type := mkEnv {
  listing : listingResponse;
  imageHost : string -> option (list byte);
  entropy : nat -> N;
  clock : nat -> string;
  cfg : config
}.

Inductive error : Type :=
| FetchFailed
| NetworkError
| TypeError
| SyntaxError.

(** The effects of a cycle that the properties speak about, in the order
    in which the script performs them: [fetch(imageUrl)] is called, an
    image file is written, [notifyNewProduct] is called, [axios.post] is
    called, the promise of [sendToSlack] rejects, [saveCache] is called. *)
Inductive event : Type :=
| EDownload (productName url : string)
| EWriteImage (file : string)
| ENotify (p : product)
| EPost (m : slackMessage)
| ERejected (e : error)
| ESave (products : list product).

(** ** The effect monad: state, exceptions and a trace *)

Inductive outcome (A : Type) : Type :=
| Ret (a : A)
| Throw (e : error).
Arguments Ret {A} a.
Arguments Throw {A} e.

Definition M (A : Type) : Type := World -> outcome A * World * list event.

Definition ret {A} (a : A) : M A := fun w => (Ret a, w, []).
Definition throw {A} (e : error) : M A := fun w => (Throw e, w, []).
Definition emit (ev : event) : M unit := fun w => (Ret tt, w, [ev]).

Definition bind {A B} (m : M A) (f : A -> M B) : M B := fun w =>
  match m w with
  | (Ret a, w1, t1) =>
      match f a w1 with (r, w2, t2) => (r, w2, t1 ++ t2) end
  | (Throw e, w1, t1) => (Throw e, w1, t1)
  end.

(** [try { m } catch (error) { h error }] *)
Definition tryCatch {A} (m : M A) (h : error -> M A) : M A := fun w =>
  match m w with
  | (Ret a, w1, t1) => (Ret a, w1, t1)
  | (Throw e, w1, t1) =>
      match h e w1 with (r, w2, t2) => (r, w2, t1 ++ t2) end
  end.

(** A call of an [async] function whose promise is dropped: what it does
    up to its first [await] happens in place, a rejection stays
    unhandled. *)
Definition detached (m : M unit) : M unit := fun w =>
  match m w with
  | (Ret _, w1, t1) => (Ret tt, w1, t1)
  | (Throw e, w1, t1) => (Ret tt, w1, t1 ++ [ERejected e])
  end.

Notation "x <- m ;; k" := (bind m (fun x => k))
  (at level 61, m at next level, right associativity).
Notation "m ;;; k" := (bind m (fun _ => k))
  (at level 61, right associativity).

Definition result {A} (x : outcome A * World * list event) : outcome A :=
  fst (fst x).
Definition world {A} (x : outcome A * World * list event) : World :=
  snd (fst x).
Definition trace {A} (x : outcome A * World * list event) : list event :=
  snd x.

(** ** Strings *)

(** [s.replace(pat, rep)] for a string pattern: the first occurrence. *)
Definition replaceFirst (pat rep s : string) : string :=
  match index 0 pat s with
  | Some n =>
      (substring 0 n s ++ rep ++
       substring (n + String.length pat)
                 (String.length s - (n + String.length pat)) s)%string
  | None => s
  end.

(** [s.split('?')[0]] *)
Definition beforeQuery (s : string) : string :=
  match index 0 "?" s with
  | Some n => substring 0 n s
  | None => s
  end.

Definition hexDigit (n : N) : ascii :=
  match n with
  | 0%N => "0" | 1%N => "1" | 2%N => "2" | 3%N => "3"
  | 4%N => "4" | 5%N => "5" | 6%N => "6" | 7%N => "7"
  | 8%N => "8" | 9%N => "9" | 10%N => "a" | 11%N => "b"
  | 12%N => "c" | 13%N => "d" | 14%N => "e" | _ => "f"
  end%char.

Fixpoint hexDigits (k : nat) (n : N) (acc : string) : string :=
  match k with
  | O => acc
  | S k' => hexDigits k' (n / 16) (String (hexDigit (n mod 16)) acc)
  end.

(** [crypto.randomBytes(16).toString('hex')], the sixteen bytes being the
    big-endian digits of [r] modulo [2^128]. *)
Definition randomHex16 (r : N) : string :=
  hexDigits 32 (r mod 2 ^ 128) EmptyString.
Arguments randomHex16 : simpl never.

(** [fs.writeFileSync] into the images directory: the file is created or
    replaced. *)
Definition writeFile (file : string) (body : list byte)
    (dir : list (string * list byte)) : list (string * list byte) :=
  (file, body) :: filter (fun e => negb (fst e =? file)) dir.

(** ** The script *)

Section Script.

(** [path.extname] of node. *)
Variable extname : string -> string.

(** [loadCache]: [JSON.parse] throws on a file that is not JSON. *)
Definition loadCache : M (list product) := fun w =>
  match cacheFile w with
  | Holds products => (Ret products, w, [])
  | Corrupt => (Throw SyntaxError, w, [])
  | Absent => (Ret [], w, [])
  end.

Definition saveCache (products : list product) : M unit := fun w =>
  (Ret tt, mkWorld (Holds products) (imagesDir w), [ESave products]).

(** [await fetch(imageUrl)] and [await imageResponse.arrayBuffer()]; the
    status of the response is not looked at. *)
Definition fetchImage (env : Env) (productName url : string)
    : M (list byte) := fun w =>
  match imageHost env url with
  | Some body => (Ret body, w, [EDownload productName url])
  | None => (Throw NetworkError, w, [EDownload productName url])
  end.

Definition writeImage (file : string) (body : list byte) : M unit := fun w =>
  (Ret tt, mkWorld (cacheFile w) (writeFile file body (imagesDir w)),
   [EWriteImage file]).

(** [imageUrl.replace('respimgsize', '145x').split('?')[0]] *)
Definition normalizeImageUrl (s : string) : string :=
  beforeQuery (replaceFirst "respimgsize" "145x" s).
Arguments normalizeImageUrl : simpl never.

(** The identifier the [else] branch reuses: [cachedProduct] exists and
    its [imageId] is truthy. *)
Definition cachedImageId (cachedProduct : option product) : option string :=
  match cachedProduct with
  | Some c =>
      match imageId c with
      | Some id => if id =? EmptyString then None else Some id
      | None => None
      end
  | None => None
  end.

(** The image part of the loop body, for the element at index [i]. *)
Definition resolveImage (env : Env) (cachedProducts : list product)
    (i : nat) (productName url : string) : M string :=
  let cachedProduct :=
    find (fun p => name p =? productName) cachedProducts in
  match cachedImageId cachedProduct with
  | None =>
      let imageExtension := extname url in
      let id := randomHex16 (entropy env i) in
      let imagePath := (id ++ imageExtension)%string in
      body <- fetchImage env productName url ;;
      writeImage imagePath body ;;;
      ret id
  | Some id => ret id
  end.

(** The record the loop pushes for one element. *)
Definition productOf (raw : rawFields) (id : string) : product :=
  mkProduct (rawName raw)
            ("https://wcproducts.com" ++ rawHref raw)%string
            (Some id)
            (Some (normalizeImageUrl ("https:" ++ rawMainImage raw)%string))
            (rawPrice raw)
            None.

(** The [for] loop of [fetchProducts], from index [i] on, [products] being
    the array pushed so far. *)
Fixpoint fetchLoop (env : Env) (cachedProducts : list product)
    (elements : list element) (i : nat) (products : list product)
    : M (list product) :=
  match elements with
  | [] => ret products
  | None :: _ => throw TypeError
  | Some raw :: rest =>
      id <- resolveImage env cachedProducts i (rawName raw)
              (normalizeImageUrl ("https:" ++ rawMainImage raw)%string) ;;
      fetchLoop env cachedProducts rest (S i) (products ++ [productOf raw id])
  end.

Definition fetchProducts (env : Env) : M (list product) :=
  tryCatch
    (match listing env with
     | Unreachable => throw NetworkError
     | Response ok elements =>
         if negb ok then throw FetchFailed
         else
           cachedProducts <- loadCache ;;
           fetchLoop env cachedProducts elements 0 []
     end)
    (fun _ => ret []).

(** The filter of [checkForNewProducts]:
    [!cachedProducts.some(cachedProduct => cachedProduct.name === product.name)] *)
Definition isNew (cachedProducts : list product) (p : product) : bool :=
  negb (existsb (fun cachedProduct => name cachedProduct =? name p)
                cachedProducts).

Definition newProducts (currentProducts cachedProducts : list product)
    : list product :=
  filter (isNew cachedProducts) currentProducts.

(** [config.slack?.enableBot === false] *)
Definition botDisabled (c : config) : bool :=
  match slack c with
  | Some s => match enableBot s with Some false => true | _ => false end
  | None => false
  end.

(** [sendToSlack]: a rejection of [axios.post] is caught and logged; reading
    [config.slack.token] when there is no [slack] section throws. *)
Definition sendToSlack (c : config)
    (newProductName newProductPrice newProductLink : string)
    (newProductImageUrl : option string) : M unit :=
  if botDisabled c then ret tt
  else
    match slack c with
    | None => throw TypeError
    | Some s =>
        emit (EPost (mkMessage (token s) (channelName s) newProductName
                               newProductPrice newProductLink
                               newProductImageUrl))
    end.

(** [notifyNewProduct]: the console line, then [sendToSlack] without
    [await]. *)
Definition notifyNewProduct (c : config) (p : product) : M unit :=
  emit (ENotify p) ;;;
  detached (sendToSlack c (name p) (price p) (productPage p) (imageUrl p)).

(** [product.cachedTime = new Date().toISOString()] *)
Definition stamp (time : string) (p : product) : product :=
  mkProduct (name p) (productPage p) (imageId p) (imageUrl p) (price p)
            (Some time).

(** The [forEach] of [checkForNewProducts], from index [i] on.  It stamps
    the objects in place; the result is the array as it is afterwards. *)
Fixpoint notifyEach (env : Env) (i : nat) (products : list product)
    : M (list product) :=
  match products with
  | [] => ret []
  | p :: rest =>
      let p' := stamp (clock env i) p in
      notifyNewProduct (cfg env) p' ;;;
      rest' <- notifyEach env (S i) rest ;;
      ret (p' :: rest')
  end.

(** [checkForNewProducts] up to its last statement: fetch, load, filter,
    and notify when the cache was not empty.  It returns [cachedProducts]
    and [newProducts] as the last statement sees them. *)
Definition detectAndNotify (env : Env) : M (list product * list product) :=
  currentProducts <- fetchProducts env ;;
  cachedProducts <- loadCache ;;
  let fresh := newProducts currentProducts cachedProducts in
  fresh' <- (if (0 <? List.length cachedProducts)%nat
             then notifyEach env 0 fresh
             else ret fresh) ;;
  ret (cachedProducts, fresh').

(** The last statement:
    [if (newProducts.length > 0) saveCache([...cachedProducts, ...newProducts])] *)
Definition persistNew (x : list product * list product) : M unit :=
  let (cachedProducts, fresh) := x in
  if (0 <? List.length fresh)%nat
  then saveCache (cachedProducts ++ fresh)
  else ret tt.

Definition checkForNewProducts (env : Env) : M unit :=
  x <- detectAndNotify env ;;
  persistNew x.

End Script.

(** ** The console-only script [main.js]

    It shares [loadCache], [saveCache], the image part of the loop and the
    filter with the script above.  Its records have no [imageUrl], its
    page links carry the [/collections] prefix, its notification is the
    console line alone, and its [forEach] is not guarded by the size of the
    cache. *)
Module MainJs.
Section Script.

Variable extname : string -> string.

Definition productOf (raw : rawFields) (id : string) : product :=
  mkProduct (rawName raw)
            ("https://wcproducts.com/collections" ++ rawHref raw)%string
            (Some id)
            None
            (rawPrice raw)
            None.

Fixpoint fetchLoop (env : Env) (cachedProducts : list product)
    (elements : list element) (i : nat) (products : list product)
    : M (list product) :=
  match elements with
  | [] => ret products
  | None :: _ => throw TypeError
  | Some raw :: rest =>
      id <- resolveImage extname env cachedProducts i (rawName raw)
              (normalizeImageUrl ("https:" ++ rawMainImage raw)%string) ;;
      fetchLoop env cachedProducts rest (S i) (products ++ [productOf raw id])
  end.

Definition fetchProducts (env : Env) : M (list product) :=
  tryCatch
    (match listing env with
     | Unreachable => throw NetworkError
     | Response ok elements =>
         if negb ok then throw FetchFailed
         else
           cachedProducts <- loadCache ;;
           fetchLoop env cachedProducts elements 0 []
     end)
    (fun _ => ret []).

Definition notifyNewProduct (p : product) : M unit := emit (ENotify p).

Fixpoint notifyEach (env : Env) (i : nat) (products : list product)
    : M (list product) :=
  match products with
  | [] => ret []
  | p :: rest =>
      let p' := stamp (clock env i) p in
      notifyNewProduct p' ;;;
      rest' <- notifyEach env (S i) rest ;;
      ret (p' :: rest')
  end.

Definition detectAndNotify (env : Env) : M (list product * list product) :=
  currentProducts <- fetchProducts env ;;
  cachedProducts <- loadCache ;;
  fresh' <- notifyEach env 0 (newProducts currentProducts cachedProducts) ;;
  ret (cachedProducts, fresh').

Definition checkForNewProducts (env : Env) : M unit :=
  x <- detectAndNotify env ;;
  persistNew x.

End Script.
End MainJs.

(** ** Observations on a trace *)

(** The records handed to [notifyNewProduct], in order. *)
Fixpoint notified (t : list event) : list product :=
  match t with
  | [] => []
  | ENotify p :: t' => p :: notified t'
  | _ :: t' => notified t'
  end.

(** The arrays handed to [saveCache], in order. *)
Fixpoint saved (t : list event) : list (list product) :=
  match t with
  | [] => []
  | ESave ps :: t' => ps :: saved t'
  | _ :: t' => saved t'
  end.

(** The number of image requests made for a product name. *)
Fixpoint downloadsOf (productName : string) (t : list event) : nat :=
  match t with
  | [] => 0
  | EDownload n _ :: t' =>
      (if n =? productName then 1 else 0) + downloadsOf productName t'
  | _ :: t' => downloadsOf productName t'
  end.

(** What [loadCache] would return on a world, [None] when it throws. *)
Definition storeOf (w : World) : option (list product) :=
  match cacheFile w with
  | Absent => Some []
  | Holds ps => Some ps
  | Corrupt => None
  end.

(** ** What the steps of a cycle compute *)

(** The array the [forEach] leaves behind, and the events it performs. *)
Fixpoint stampFrom (env : Env) (i : nat) (products : list product)
    : list product :=
  match products with
  | [] => []
  | p :: rest => stamp (clock env i) p :: stampFrom env (S i) rest
  end.

Definition slackEvents (c : config) (p : product) : list event :=
  if botDisabled c then []
  else
    match slack c with
    | None => [ERejected TypeError]
    | Some s =>
        [EPost (mkMessage (token s) (channelName s) (name p) (price p)
                          (productPage p) (imageUrl p))]
    end.

Fixpoint notifyTrace (env : Env) (i : nat) (products : list product)
    : list event :=
  match products with
  | [] => []
  | p :: rest =>
      ENotify (stamp (clock env i) p)
        :: slackEvents (cfg env) (stamp (clock env i) p)
        ++ notifyTrace env (S i) rest
  end.

(** The names of the elements of a listing that the selectors can read. *)
Fixpoint namesOf (elements : list element) : list string :=
  match elements with
  | [] => []
  | Some raw :: rest => rawName raw :: namesOf rest
  | None :: rest => namesOf rest
  end.

Definition listedNames (l : listingResponse) : list string :=
  match l with
  | Unreachable => []
  | Response _ elements => namesOf elements
  end.

(** ** Predicates the properties are stated with *)

(** A record whose [imageId] is the one the cache holds for its name when
    the cache holds one, and is never empty. *)
Definition resolvedFrom (cached : list product) (p : product) : Prop :=
  exists id, imageId p = Some id /\ id <> EmptyString
    /\ forall id', cachedImageId (find (fun c => name c =? name p) cached)
                   = Some id' -> id = id'.

(** [l1] is [l2] with some elements left out, the others in order. *)
Inductive subsequence {A : Type} : list A -> list A -> Prop :=
| subsequence_nil : subsequence [] []
| subsequence_keep x l1 l2 :
    subsequence l1 l2 -> subsequence (x :: l1) (x :: l2)
| subsequence_drop x l1 l2 :
    subsequence l1 l2 -> subsequence l1 (x :: l2).

(** The new records as [saveCache] receives them: stamped when the cache
    was not empty, as fetched on a first run. *)
Definition freshOf (env : Env) (cur cached : list product) : list product :=
  if (0 <? List.length cached)%nat
  then stampFrom env 0 (newProducts cur cached)
  else newProducts cur cached.

(** In a trace, every notification comes after a save that holds the
    record notified. *)
Definition persistedBeforeNotified (t : list event) : Prop :=
  forall t1 p t2,
    t = t1 ++ ENotify p :: t2 -> exists ps, In (ESave ps) t1 /\ In p ps.

(** Delivery under the configuration [c] does nothing and throws
    nothing, whatever the product. *)
Definition deliveryIsNoOp (c : config) : Prop :=
  forall n pr link img w, sendToSlack c n pr link img w = (Ret tt, w, []).

(** Neither a token nor a channel is configured. *)
Definition credentialsAbsent (c : config) : Prop :=
  match slack c with
  | None => True
  | Some s => token s = None /\ channelName s = None
  end.

(** No two records of the cache file have the same name. *)
Definition uniqueNames (w : World) : Prop :=
  exists ps, storeOf w = Some ps /\ NoDup (map name ps).

Section Claims.

Variable extname : string -> string.

Local Abbreviation cycle := (checkForNewProducts extname).
Local Abbreviation fetched := (fetchProducts extname).

(** The claim of failure isolation: in a cycle on a readable, non-empty
    cache, whose listing is extracted whole, every listed product that is
    new and whose own image can be had is notified and is in the cache
    afterwards, whatever happens to the images of the others. *)
Definition isolatesImageFailure (env : Env) (w : World) : Prop :=
  forall els raw cached,
    listing env = Response true els ->
    Forall (fun el => el <> None) els ->
    storeOf w = Some cached ->
    cached <> [] ->
    In (Some raw) els ->
    imageHost env (normalizeImageUrl ("https:" ++ rawMainImage raw)%string)
    <> None ->
    existsb (fun c => name c =? rawName raw) cached = false ->
    (exists p, In p (notified (trace (cycle env w)))
               /\ name p = rawName raw)
    /\ (exists ps p, storeOf (world (cycle env w)) = Some ps
                     /\ In p ps /\ name p = rawName raw).

(** The worlds a sequence of cycles reaches from an empty cache. *)
Inductive reachable : World -> Prop :=
| reachable_start w : storeOf w = Some [] -> reachable w
| reachable_cycle env w :
    reachable w -> reachable (world (cycle env w)).

(** The same, when no listing names a product twice. *)
Inductive reachableDistinct : World -> Prop :=
| reachableDistinct_start w : storeOf w = Some [] -> reachableDistinct w
| reachableDistinct_cycle env w :
    reachableDistinct w ->
    NoDup (listedNames (listing env)) ->
    reachableDistinct (world (cycle env w)).

(** The claim of stable image identifiers for the product name [n] over
    two consecutive cycles: a record named [n] that the first fetch
    returned and one that the second fetch returned carry the same
    [imageId], and the two cycles together request the image at most
    once, whenever the cache holds a record named [n] after the first
    cycle. *)
Definition imageIdStableFor (n : string) (env1 env2 : Env) (w0 : World)
    : Prop :=
  forall cur1 cur2 p1 p2 store1,
    result (fetched env1 w0) = Ret cur1 ->
    In p1 cur1 -> name p1 = n ->
    storeOf (world (cycle env1 w0)) = Some store1 ->
    (exists c, In c store1 /\ name c = n) ->
    result (fetched env2 (world (cycle env1 w0))) = Ret cur2 ->
    In p2 cur2 -> name p2 = n ->
    imageId p2 = imageId p1
    /\ downloadsOf n (trace (cycle env1 w0)
                      ++ trace (cycle env2 (world (cycle env1 w0)))) <= 1.

End Claims.

(** ** Sample data *)

Module Sample.

Definition ext (_ : string) : string := ".png".

Definition rawA : rawFields :=
  mkRaw "Kraken X60" "/products/kraken-x60"
        "//wcproducts.com/cdn/shop/files/kraken_respimgsize.png?v=1" "$217.99".
Definition rawB : rawFields :=
  mkRaw "Talon FXS" "/products/talon-fxs"
        "//wcproducts.com/cdn/shop/files/talon_respimgsize.png?v=7" "$89.99".
Definition rawC : rawFields :=
  mkRaw "CANcoder" "/products/cancoder"
        "//wcproducts.com/cdn/shop/files/cancoder_respimgsize.png?v=3" "$69.99".

Definition urlC : string :=
  "https://wcproducts.com/cdn/shop/files/cancoder_145x.png".

Definition pngBytes : list byte := [x89; x50; x4e; x47].

Definition hostUp (_ : string) : option (list byte) := Some pngBytes.
Definition hostDownForC (url : string) : option (list byte) :=
  if url =? urlC then None else Some pngBytes.

Definition slackOn : config :=
  mkConfig (Some (mkSlack (Some true) (Some "xoxb-1") (Some "alerts"))).
Definition slackOff : config :=
  mkConfig (Some (mkSlack (Some false) (Some "xoxb-1") (Some "alerts"))).
Definition noSlack : config := mkConfig None.
Definition unconfigured : config := mkConfig (Some (mkSlack None None None)).

Definition entropyOf (i : nat) : N := N.of_nat i + 1.
Definition clockOf (_ : nat) : string := "2024-05-01T12:00:00.000Z".

Definition envOf (els : list element) (host : string -> option (list byte))
    : Env :=
  mkEnv (Response true els) host entropyOf clockOf slackOn.

Definition known : product :=
  mkProduct "Kraken X60" "https://wcproducts.com/products/kraken-x60"
            (Some "00aa") (Some "https://wcproducts.com/kraken_145x.png")
            "$217.99" None.

(** An entry without [imageId]. *)
Definition bare : product :=
  mkProduct "Kraken X60" "https://wcproducts.com/products/kraken-x60"
            None None "$217.99" None.

Definition emptyWorld : World := mkWorld Absent [].
Definition worldOf (ps : list product) : World := mkWorld (Holds ps) [].

(** A cache that knows the first product, a listing with a second one. *)
Definition steadyWorld : World := worldOf [known].
Definition steadyEnv : Env := envOf [Some rawA; Some rawB] hostUp.

(** The same listing with a third product whose image cannot be had. *)
Definition outageListing : list element := [Some rawA; Some rawB; Some rawC].
Definition outageEnv : Env := envOf outageListing hostDownForC.

(** A listing that shows the same product twice. *)
Definition repeatedEnv : Env := envOf [Some rawA; Some rawA] hostUp.

(** Two cycles on the first product alone, with different random bytes. *)
Definition firstDraw : Env := envOf [Some rawA] hostUp.
Definition secondDraw : Env :=
  mkEnv (Response true [Some rawA]) hostUp
        (fun i => (N.of_nat i + 101)%N) clockOf slackOn.
Definition bareWorld : World := worldOf [bare].

(** The record [fetchProducts] builds for the first product. *)
Definition krakenWith (id : string) : product :=
  mkProduct "Kraken X60" "https://wcproducts.com/products/kraken-x60"
            (Some id)
            (Some "https://wcproducts.com/cdn/shop/files/kraken_145x.png")
            "$217.99" None.
Definition talonWith (id : string) : product :=
  mkProduct "Talon FXS" "https://wcproducts.com/products/talon-fxs"
            (Some id)
            (Some "https://wcproducts.com/cdn/shop/files/talon_145x.png")
            "$89.99" None.
Definition id1 : string := "00000000000000000000000000000001".
Definition id2 : string := "00000000000000000000000000000002".
Definition id101 : string := "00000000000000000000000000000065".

(** A site that answers with an error status. *)
Definition errorEnv : Env :=
  mkEnv (Response false []) hostUp entropyOf clockOf slackOn.

End Sample.

(** ** The rest of the script: start-up, and runs of several cycles *)

Section Runs.

Variable extname : string -> string.

(** The start-up block: when the cache is empty, every file of the images
    directory is unlinked.  The files are those [fs.readdir] lists when
    the script starts, before the first cycle writes any. *)
Definition cleanImages : M unit :=
  cachedProducts <- loadCache ;;
  if (List.length cachedProducts =? 0)%nat
  then (fun w => (Ret tt, mkWorld (cacheFile w) [], []))
  else ret tt.

(** The start-up block followed by the initial check. *)
Definition startup (env : Env) : M unit :=
  cleanImages ;;;
  checkForNewProducts extname env.

(** The checks that [setInterval] starts, one after the other, each with
    its own inputs: the files they leave and all they did.  A check that
    throws does not stop the next. *)
Fixpoint cycles (envs : list Env) (w : World) : World * list event :=
  match envs with
  | [] => (w, [])
  | env :: rest =>
      let r := checkForNewProducts extname env w in
      let (w', t') := cycles rest (world r) in
      (w', trace r ++ t')
  end.

End Runs.

(** ** Further observations *)

(** The messages handed to [axios.post], in order. *)
Fixpoint posted (t : list event) : list slackMessage :=
  match t with
  | [] => []
  | EPost m :: t' => m :: posted t'
  | _ :: t' => posted t'
  end.

(** The rejections of [sendToSlack] left unhandled, in order. *)
Fixpoint rejected (t : list event) : list error :=
  match t with
  | [] => []
  | ERejected e :: t' => e :: rejected t'
  | _ :: t' => rejected t'
  end.

(** The image files written, in order. *)
Fixpoint written (t : list event) : list string :=
  match t with
  | [] => []
  | EWriteImage file :: t' => file :: written t'
  | _ :: t' => written t'
  end.

(** The urls requested from the image host, in order. *)
Fixpoint requested (t : list event) : list string :=
  match t with
  | [] => []
  | EDownload _ url :: t' => url :: requested t'
  | _ :: t' => requested t'
  end.

(** The message [sendToSlack] builds for a record. *)
Definition messageOf (s : slackConfig) (p : product) : slackMessage :=
  mkMessage (token s) (channelName s) (name p) (price p) (productPage p)
            (imageUrl p).

(** A file of that name is in the images directory. *)
Definition hasFile (file : string) (w : World) : Prop :=
  In file (map fst (imagesDir w)).

(** The same inputs with another [config.json]. *)
Definition withConfig (c : config) (env : Env) : Env :=
  mkEnv (listing env) (imageHost env) (entropy env) (clock env) c.

(** The url the loop computes for an element. *)
Definition urlOf (raw : rawFields) : string :=
  normalizeImageUrl ("https:" ++ rawMainImage raw)%string.

(** The element has a cached identifier, or the image host answers for
    its url. *)
Definition resolvable (env : Env) (cached : list product) (raw : rawFields)
    : Prop :=
  cachedImageId (find (fun p => name p =? rawName raw) cached) <> None
  \/ imageHost env (urlOf raw) <> None.

(** The identifier the loop gives the element at index [i]. *)
Definition idFor (env : Env) (cached : list product) (i : nat)
    (raw : rawFields) : string :=
  match cachedImageId (find (fun p => name p =? rawName raw) cached) with
  | Some id => id
  | None => randomHex16 (entropy env i)
  end.

(** The array the loop builds from index [i] on when nothing throws. *)
Fixpoint recordsOf (env : Env) (cached : list product) (i : nat)
    (raws : list rawFields) : list product :=
  match raws with
  | [] => []
  | raw :: rest =>
      productOf raw (idFor env cached i raw)
        :: recordsOf env cached (S i) rest
  end.

(** The image files the loop writes from index [i] on when nothing
    throws: one for each element without cached identifier. *)
Fixpoint filesOf (extname : string -> string) (env : Env)
    (cached : list product) (i : nat) (raws : list rawFields)
    : list string :=
  match raws with
  | [] => []
  | raw :: rest =>
      match cachedImageId (find (fun p => name p =? rawName raw) cached) with
      | Some _ => filesOf extname env cached (S i) rest
      | None =>
          (randomHex16 (entropy env i) ++ extname (urlOf raw))%string
            :: filesOf extname env cached (S i) rest
      end
  end.

(** The string has no question mark. *)
Fixpoint noQuery (s : string) : bool :=
  match s with
  | EmptyString => true
  | String c s' => negb (Ascii.eqb c "?") && noQuery s'
  end.

(** The value of a hexadecimal digit: its place among the sixteen. *)
Definition hexValue (c : ascii) : option N :=
  option_map N.of_nat (index 0 (String c EmptyString) "0123456789abcdef").

(** The value of a string of hexadecimal digits, read after [acc]. *)
Fixpoint parseHex (s : string) (acc : N) : option N :=
  match s with
  | EmptyString => Some acc
  | String c s' =>
      match hexValue c with
      | Some d => parseHex s' (16 * acc + d)
      | None => None
      end
  end.

(** Two records that [main.js] and the script above build from the same
    element: they agree on all but the page link and the image url. *)
Definition sameItem (p q : product) : Prop :=
  name p = name q /\ imageId p = imageId q /\ price p = price q
  /\ cachedTime p = cachedTime q.

(** ** More sample data *)

Module MoreSample.

Import Sample.

(** A listing whose second element cannot be read. *)
Definition brokenListing : list element := [Some rawB; None].
Definition brokenEnv : Env := envOf brokenListing hostUp.

(** A cache file that is not JSON. *)
Definition corruptWorld : World := mkWorld Corrupt [].

(** No cache yet, and an image left from an earlier run. *)
Definition staleWorld : World := mkWorld Absent [("old.png", pngBytes)].

(** A cache that holds a record, and an image in the directory. *)
Definition keptWorld : World := mkWorld (Holds [known]) [("old.png", pngBytes)].

Definition steadyRaws : list rawFields := [rawA; rawB].

(** What [fetchProducts] returns for the two products when the first is
    cached. *)
Definition steadyFetch : list product := [krakenWith "00aa"; talonWith id2].

End MoreSample.

(** * Proofs *)

Section Facts.

Lemma loadCache_storeOf (w : World) (products : list product) :
  storeOf w = Some products -> loadCache w = (Ret products, w, []).
Proof.
  unfold storeOf, loadCache.
  destruct (cacheFile w); intros H; inversion H; reflexivity.
Qed.

Lemma notifyNewProduct_run (c : config) (p : product) (w : World) :
  notifyNewProduct c p w = (Ret tt, w, ENotify p :: slackEvents c p).
Proof.
  unfold notifyNewProduct, bind, emit, detached, sendToSlack, slackEvents.
  destruct (botDisabled c); [reflexivity|].
  destruct (slack c); reflexivity.
Qed.

Lemma notifyEach_run (env : Env) (products : list product) :
  forall (i : nat) (w : World),
    notifyEach env i products w
    = (Ret (stampFrom env i products), w, notifyTrace env i products).
Proof.
  induction products as [|p rest IH]; intros i w; [reflexivity|].
  simpl. unfold bind at 1. rewrite notifyNewProduct_run.
  unfold bind. rewrite IH. unfold ret. simpl.
  rewrite app_nil_r. reflexivity.
Qed.

Lemma notified_app (t1 t2 : list event) :
  notified (t1 ++ t2) = notified t1 ++ notified t2.
Proof.
  induction t1 as [|e t1 IH]; [reflexivity|].
  destruct e; simpl; rewrite IH; reflexivity.
Qed.

Lemma saved_app (t1 t2 : list event) :
  saved (t1 ++ t2) = saved t1 ++ saved t2.
Proof.
  induction t1 as [|e t1 IH]; [reflexivity|].
  destruct e; simpl; rewrite IH; reflexivity.
Qed.

Lemma downloadsOf_app (n : string) (t1 t2 : list event) :
  downloadsOf n (t1 ++ t2) = downloadsOf n t1 + downloadsOf n t2.
Proof.
  induction t1 as [|e t1 IH]; [reflexivity|].
  destruct e; simpl; rewrite IH; lia.
Qed.

Lemma slackEvents_quiet (c : config) (p : product) (n : string) :
  notified (slackEvents c p) = [] /\ saved (slackEvents c p) = []
  /\ downloadsOf n (slackEvents c p) = 0.
Proof.
  unfold slackEvents.
  destruct (botDisabled c); [repeat split|].
  destruct (slack c); repeat split.
Qed.

Lemma notifyTrace_notified (env : Env) (products : list product) :
  forall i, notified (notifyTrace env i products) = stampFrom env i products.
Proof.
  induction products as [|p rest IH]; intros i; [reflexivity|].
  simpl. rewrite notified_app, IH.
  destruct (slackEvents_quiet (cfg env) (stamp (clock env i) p) EmptyString)
    as (-> & _). reflexivity.
Qed.

Lemma notifyTrace_saved (env : Env) (products : list product) :
  forall i, saved (notifyTrace env i products) = [].
Proof.
  induction products as [|p rest IH]; intros i; [reflexivity|].
  simpl. rewrite saved_app, IH.
  destruct (slackEvents_quiet (cfg env) (stamp (clock env i) p) EmptyString)
    as (_ & -> & _). reflexivity.
Qed.

Lemma notifyTrace_downloads (env : Env) (n : string)
    (products : list product) :
  forall i, downloadsOf n (notifyTrace env i products) = 0.
Proof.
  induction products as [|p rest IH]; intros i; [reflexivity|].
  simpl. rewrite downloadsOf_app, IH.
  destruct (slackEvents_quiet (cfg env) (stamp (clock env i) p) n)
    as (_ & _ & ->). reflexivity.
Qed.

Lemma stampFrom_names (env : Env) (products : list product) :
  forall i, map name (stampFrom env i products) = map name products.
Proof.
  induction products as [|p rest IH]; intros i; [reflexivity|].
  simpl. rewrite IH. reflexivity.
Qed.

Lemma stampFrom_length (env : Env) (products : list product) :
  forall i, List.length (stampFrom env i products) = List.length products.
Proof.
  induction products as [|p rest IH]; intros i; [reflexivity|].
  simpl. rewrite IH. reflexivity.
Qed.

Lemma stampFrom_In (env : Env) (products : list product) (q : product) :
  forall i, In q (stampFrom env i products) ->
    exists p time, In p products /\ q = stamp time p.
Proof.
  induction products as [|p rest IH]; intros i H; [destruct H|].
  destruct H as [H|H].
  - exists p, (clock env i). split; [now left | now symmetry].
  - destruct (IH _ H) as (p' & time & Hin & Heq).
    exists p', time. split; [now right | assumption].
Qed.

End Facts.

Section FetchFacts.

Variable extname : string -> string.

Lemma hexDigits_length (k : nat) :
  forall (n : N) (acc : string),
    String.length (hexDigits k n acc) = k + String.length acc.
Proof.
  induction k as [|k IH]; intros n acc; [reflexivity|].
  simpl. rewrite IH. simpl. lia.
Qed.

Lemma randomHex16_length (r : N) : String.length (randomHex16 r) = 32.
Proof. unfold randomHex16. now rewrite hexDigits_length. Qed.

Lemma randomHex16_nonempty (r : N) : randomHex16 r <> EmptyString.
Proof.
  intros H. pose proof (randomHex16_length r) as L.
  rewrite H in L. discriminate L.
Qed.

Lemma cachedImageId_nonempty (c : option product) (id : string) :
  cachedImageId c = Some id -> id <> EmptyString.
Proof.
  unfold cachedImageId. destruct c as [c|]; [|discriminate].
  destruct (imageId c) as [id'|]; [|discriminate].
  destruct (id' =? EmptyString) eqn:E; [discriminate|].
  intros H; inversion H; subst. now apply String.eqb_neq.
Qed.

(** The three ways the image part of the loop body ends. *)
Lemma resolveImage_run (env : Env) (cached : list product) (i : nat)
    (n url : string) (w : World) :
  match cachedImageId (find (fun p => name p =? n) cached) with
  | Some id => resolveImage extname env cached i n url w = (Ret id, w, [])
  | None =>
      match imageHost env url with
      | Some body =>
          resolveImage extname env cached i n url w
          = (Ret (randomHex16 (entropy env i)),
             mkWorld (cacheFile w)
               (writeFile (randomHex16 (entropy env i) ++ extname url)%string
                          body (imagesDir w)),
             [EDownload n url;
              EWriteImage (randomHex16 (entropy env i) ++ extname url)%string])
      | None =>
          resolveImage extname env cached i n url w
          = (Throw NetworkError, w, [EDownload n url])
      end
  end.
Proof.
  unfold resolveImage.
  destruct (cachedImageId (find (fun p => name p =? n) cached)); [reflexivity|].
  unfold bind, fetchImage.
  destruct (imageHost env url); reflexivity.
Qed.

Lemma fetchLoop_some (env : Env) (cached : list product) (raw : rawFields)
    (rest : list element) (i : nat) (acc : list product) :
  fetchLoop extname env cached (Some raw :: rest) i acc
  = (id <- resolveImage extname env cached i (rawName raw)
             (normalizeImageUrl ("https:" ++ rawMainImage raw)%string) ;;
     fetchLoop extname env cached rest (S i) (acc ++ [productOf raw id])).
Proof. reflexivity. Qed.

Lemma productOf_name (raw : rawFields) (id : string) :
  name (productOf raw id) = rawName raw.
Proof. reflexivity. Qed.

Lemma productOf_imageId (raw : rawFields) (id : string) :
  imageId (productOf raw id) = Some id.
Proof. reflexivity. Qed.

Lemma fetchLoop_inv (env : Env) (cached : list product)
    (elements : list element) :
  forall (i : nat) (acc : list product) (w : World),
    let r := fetchLoop extname env cached elements i acc w in
    cacheFile (world r) = cacheFile w
    /\ notified (trace r) = [] /\ saved (trace r) = []
    /\ (forall n, downloadsOf n (trace r)
                  <= count_occ string_dec (namesOf elements) n)
    /\ (forall n id,
          cachedImageId (find (fun p => name p =? n) cached) = Some id ->
          downloadsOf n (trace r) = 0)
    /\ (forall ps, result r = Ret ps ->
          exists ps', ps = acc ++ ps'
            /\ map name ps' = namesOf elements
            /\ Forall (resolvedFrom cached) ps').
Proof.
  induction elements as [|el rest IH]; intros i acc w.
  - simpl. repeat split; auto.
    intros ps H. inversion H; subst. exists []. rewrite app_nil_r. auto.
  - destruct el as [raw|].
    2:{ simpl. repeat split; auto using Nat.le_0_l.
        intros ps H. discriminate H. }
    rewrite fetchLoop_some.
    remember (normalizeImageUrl ("https:" ++ rawMainImage raw)%string)
      as url eqn:Eurl.
    pose proof (resolveImage_run env cached i (rawName raw) url w) as R.
    unfold bind.
    destruct (cachedImageId (find (fun p => name p =? rawName raw) cached))
      as [id|] eqn:C.
    + rewrite R.
      specialize (IH (S i) (acc ++ [productOf raw id]) w).
      destruct (fetchLoop extname env cached rest (S i)
                  (acc ++ [productOf raw id]) w) as [[r' w'] t'].
      simpl in *. destruct IH as (H1 & H2 & H3 & H4 & H5 & H6).
      repeat split; auto.
      * intros n. specialize (H4 n).
        destruct (string_dec (rawName raw) n); lia.
      * intros ps Hps. destruct (H6 _ Hps) as (ps' & -> & Hn & Hf).
        exists (productOf raw id :: ps'). rewrite <- app_assoc. simpl.
        repeat split; [now rewrite Hn|].
        constructor; [|assumption].
        exists id. rewrite productOf_name, productOf_imageId.
        repeat split.
        -- eapply cachedImageId_nonempty; eassumption.
        -- intros id' Hid'. rewrite C in Hid'. now inversion Hid'.
    + destruct (imageHost env url) as [body|].
      * rewrite R.
        remember (randomHex16 (entropy env i)) as id eqn:Eid.
        set (w1 := mkWorld (cacheFile w) _).
        specialize (IH (S i) (acc ++ [productOf raw id]) w1).
        destruct (fetchLoop extname env cached rest (S i)
                    (acc ++ [productOf raw id]) w1) as [[r' w'] t'].
        simpl in *. destruct IH as (H1 & H2 & H3 & H4 & H5 & H6).
        repeat split; auto.
        -- intros n. specialize (H4 n).
           destruct (string_dec (rawName raw) n) as [->|Hne].
           ++ rewrite String.eqb_refl. lia.
           ++ apply String.eqb_neq in Hne. rewrite Hne. lia.
        -- intros n id' Hid'.
           destruct (rawName raw =? n) eqn:E.
           ++ apply String.eqb_eq in E. subst n. rewrite C in Hid'.
              discriminate Hid'.
           ++ simpl. eauto.
        -- intros ps Hps. destruct (H6 _ Hps) as (ps' & -> & Hn & Hf).
           exists (productOf raw id :: ps'). rewrite <- app_assoc. simpl.
           repeat split; [now rewrite Hn|].
           constructor; [|assumption].
           exists id. rewrite productOf_name, productOf_imageId.
           repeat split.
           ++ subst id. apply randomHex16_nonempty.
           ++ intros id' Hid'. rewrite C in Hid'. discriminate Hid'.
      * rewrite R. simpl. repeat split; auto.
        -- intros n. destruct (string_dec (rawName raw) n) as [->|Hne].
           ++ rewrite String.eqb_refl. lia.
           ++ apply String.eqb_neq in Hne. rewrite Hne. lia.
        -- intros n id' Hid'.
           destruct (rawName raw =? n) eqn:E; [|reflexivity].
           apply String.eqb_eq in E. subst n. rewrite C in Hid'.
           discriminate Hid'.
        -- intros ps H. discriminate H.
Qed.

End FetchFacts.

Section CycleFacts.

Variable extname : string -> string.

Lemma storeOf_cacheFile (w w' : World) :
  cacheFile w' = cacheFile w -> storeOf w' = storeOf w.
Proof. unfold storeOf. now intros ->. Qed.

(** An element whose image has to be downloaded from a host that does not
    answer makes the loop throw, wherever it stands in the listing. *)
Lemma fetchLoop_throws (env : Env) (cached : list product) (raw : rawFields)
    (elements : list element) :
  In (Some raw) elements ->
  cachedImageId (find (fun p => name p =? rawName raw) cached) = None ->
  imageHost env (normalizeImageUrl ("https:" ++ rawMainImage raw)%string)
  = None ->
  forall (i : nat) (acc : list product) (w : World),
    exists e, result (fetchLoop extname env cached elements i acc w) = Throw e.
Proof.
  intros Hin Hc Hh.
  induction elements as [|el rest IH]; intros i acc w; [destruct Hin|].
  destruct el as [raw0|]; [|exists TypeError; reflexivity].
  rewrite fetchLoop_some.
  remember (normalizeImageUrl ("https:" ++ rawMainImage raw0)%string)
    as url eqn:Eurl.
  pose proof (resolveImage_run extname env cached i (rawName raw0) url w) as R.
  unfold bind.
  destruct Hin as [Heq|Hin].
  - inversion Heq; subst raw0. rewrite Hc in R. subst url.
    rewrite Hh in R. rewrite R. exists NetworkError. reflexivity.
  - destruct (cachedImageId (find (fun p => name p =? rawName raw0) cached))
      as [id|].
    + rewrite R.
      destruct (IH Hin (S i) (acc ++ [productOf raw0 id]) w) as (e & He).
      destruct (fetchLoop extname env cached rest (S i)
                  (acc ++ [productOf raw0 id]) w) as [[r' w'] t'].
      exists e. exact He.
    + destruct (imageHost env url) as [body|].
      * rewrite R.
        match goal with
        | |- context [fetchLoop extname env cached rest (S i) ?a ?w1] =>
            destruct (IH Hin (S i) a w1) as (e & He);
            destruct (fetchLoop extname env cached rest (S i) a w1)
              as [[r' w'] t']
        end.
        exists e. exact He.
      * rewrite R. exists NetworkError. reflexivity.
Qed.

(** [fetchProducts] when the listing page cannot be had. *)
Lemma fetchProducts_unreachable (env : Env) (w : World) :
  listing env = Unreachable \/ (exists els, listing env = Response false els) ->
  fetchProducts extname env w = (Ret [], w, []).
Proof.
  unfold fetchProducts, tryCatch.
  intros [H | (els & H)]; rewrite H; reflexivity.
Qed.

(** [fetchProducts] never throws, never touches the cache file, and
    neither notifies nor saves. *)
(** [fetchProducts] on a page that was fetched: the loop runs on the
    cached array and a throw of the loop becomes the empty array. *)
Lemma fetchProducts_listed (env : Env) (w : World) (els : list element)
    (stored : list product) :
  listing env = Response true els ->
  storeOf w = Some stored ->
  fetchProducts extname env w
  = match fetchLoop extname env stored els 0 [] w with
    | (Ret ps, w', t) => (Ret ps, w', t)
    | (Throw _, w', t) => (Ret [], w', t)
    end.
Proof.
  intros Hl Hs. unfold fetchProducts, tryCatch. rewrite Hl. simpl.
  unfold bind. rewrite (loadCache_storeOf w stored Hs).
  destruct (fetchLoop extname env stored els 0 [] w) as [[[ps|e] w'] t];
    simpl; now rewrite ?app_nil_r.
Qed.

Lemma fetchProducts_corrupt (env : Env) (w : World) :
  storeOf w = None -> fetchProducts extname env w = (Ret [], w, []).
Proof.
  intros Hs. unfold fetchProducts, tryCatch.
  destruct (listing env) as [|[|] els]; try reflexivity.
  unfold bind, loadCache. simpl. unfold storeOf in Hs.
  destruct (cacheFile w); try discriminate. reflexivity.
Qed.

Lemma fetchProducts_inv (env : Env) (w : World) :
  let r := fetchProducts extname env w in
  (exists cur, result r = Ret cur)
  /\ cacheFile (world r) = cacheFile w
  /\ notified (trace r) = [] /\ saved (trace r) = []
  /\ (forall n, downloadsOf n (trace r)
                <= count_occ string_dec (listedNames (listing env)) n)
  /\ (forall cached n id,
        storeOf w = Some cached ->
        cachedImageId (find (fun p => name p =? n) cached) = Some id ->
        downloadsOf n (trace r) = 0)
  /\ (forall cur, result r = Ret cur ->
        cur = []
        \/ (map name cur = listedNames (listing env)
            /\ forall cached, storeOf w = Some cached ->
                 Forall (resolvedFrom cached) cur)).
Proof.
  destruct (storeOf w) as [stored|] eqn:Es.
  2:{ rewrite (fetchProducts_corrupt env w Es).
      unfold result, world, trace. simpl.
      repeat split; eauto using Nat.le_0_l; try discriminate.
      intros cur H. inversion H. now left. }
  destruct (listing env) as [|ok els] eqn:El; [|destruct ok].
  1, 3: rewrite fetchProducts_unreachable by (rewrite El; eauto);
        unfold result, world, trace; simpl;
        repeat split; eauto using Nat.le_0_l;
        intros cur H; inversion H; now left.
  rewrite (fetchProducts_listed env w els stored El Es).
  pose proof (fetchLoop_inv extname env stored els 0 [] w) as I.
  destruct (fetchLoop extname env stored els 0 [] w) as [[r' w'] t'].
  unfold result, world, trace in *. simpl in I.
  destruct I as (H1 & H2 & H3 & H4 & H5 & H6).
  destruct r' as [ps|e]; simpl.
  - repeat split; eauto.
    + intros cached n id Hs. inversion Hs; subst. eauto.
    + intros cur Hc. inversion Hc; subst cur.
      destruct (H6 _ eq_refl) as (ps' & -> & Hn & Hf). right.
      split; [exact Hn|]. intros cached Hs. now inversion Hs; subst.
  - repeat split; eauto.
    + intros cached n id Hs. inversion Hs; subst. eauto.
    + intros cur Hc. inversion Hc. now left.
Qed.

Lemma fetchProducts_returns (env : Env) (w : World) :
  exists cur wf tf,
    fetchProducts extname env w = (Ret cur, wf, tf)
    /\ cacheFile wf = cacheFile w.
Proof.
  destruct (fetchProducts_inv env w) as ((cur & Hc) & Hw & _).
  destruct (fetchProducts extname env w) as [[r wf] tf].
  unfold result, world in *. simpl in *. subst r. now exists cur, wf, tf.
Qed.

(** One cycle, in terms of what [fetchProducts] returned and of the array
    in the cache file. *)
Lemma cycle_run (env : Env) (w wf : World) (cached cur : list product)
    (tf : list event) :
  fetchProducts extname env w = (Ret cur, wf, tf) ->
  storeOf w = Some cached ->
  let fresh := newProducts cur cached in
  let notifying := (0 <? List.length cached)%nat in
  let fresh' := if notifying then stampFrom env 0 fresh else fresh in
  let tn := if notifying then notifyTrace env 0 fresh else [] in
  detectAndNotify extname env w = (Ret (cached, fresh'), wf, tf ++ tn)
  /\ checkForNewProducts extname env w
     = if (0 <? List.length fresh')%nat
       then (Ret tt, mkWorld (Holds (cached ++ fresh')) (imagesDir wf),
             tf ++ tn ++ [ESave (cached ++ fresh')])
       else (Ret tt, wf, tf ++ tn).
Proof.
  intros Hf Hs fresh notifying fresh' tn.
  assert (Hwf : storeOf wf = Some cached).
  { rewrite <- Hs. apply storeOf_cacheFile.
    pose proof (fetchProducts_inv env w) as I. rewrite Hf in I.
    unfold world in I. simpl in I. tauto. }
  assert (D : detectAndNotify extname env w
              = (Ret (cached, fresh'), wf, tf ++ tn)).
  { unfold detectAndNotify. unfold bind at 1. rewrite Hf.
    unfold bind at 1. rewrite (@loadCache_storeOf wf cached Hwf).
    unfold bind, ret. subst fresh' tn notifying fresh.
    destruct (0 <? List.length cached)%nat.
    - rewrite notifyEach_run. simpl. now rewrite app_nil_r.
    - reflexivity. }
  split; [exact D|].
  unfold checkForNewProducts, bind. rewrite D. unfold persistNew.
  destruct (0 <? List.length fresh')%nat.
  - unfold saveCache. now rewrite <- app_assoc.
  - unfold ret. now rewrite app_nil_r.
Qed.

(** A cycle on a cache file that is not JSON: the second [loadCache]
    throws after [fetchProducts] has caught the first. *)
Lemma cycle_corrupt (env : Env) (w : World) :
  storeOf w = None ->
  checkForNewProducts extname env w
  = (Throw SyntaxError, world (fetchProducts extname env w),
     trace (fetchProducts extname env w)).
Proof.
  intros Hs.
  destruct (fetchProducts_returns env w) as (cur & wf & tf & Hf & Hw).
  unfold checkForNewProducts, detectAndNotify.
  unfold bind. rewrite Hf. unfold loadCache.
  unfold storeOf in Hs. rewrite Hw.
  destruct (cacheFile w); try discriminate.
  unfold world, trace. simpl. now rewrite app_nil_r.
Qed.

End CycleFacts.

(** ** Properties of a cycle *)

Section Properties.

Variable extname : string -> string.

Local Abbreviation cycle := (checkForNewProducts extname).
Local Abbreviation fetched := (fetchProducts extname).

Lemma result_run {A} (x : outcome A * World * list event) (a : A) :
  result x = Ret a -> x = (Ret a, world x, trace x).
Proof.
  destruct x as [[r w] t]. unfold result, world, trace. simpl.
  now intros ->.
Qed.

Lemma freshOf_length (env : Env) (cur cached : list product) :
  List.length (freshOf env cur cached)
  = List.length (newProducts cur cached).
Proof.
  unfold freshOf. destruct (0 <? List.length cached)%nat; [|reflexivity].
  apply stampFrom_length.
Qed.

Lemma freshOf_names (env : Env) (cur cached : list product) :
  map name (freshOf env cur cached) = map name (newProducts cur cached).
Proof.
  unfold freshOf. destruct (0 <? List.length cached)%nat; [|reflexivity].
  apply stampFrom_names.
Qed.

(** What one cycle leaves behind, when the cache file can be read. *)
Lemma cycle_summary (env : Env) (w : World) (cached cur : list product) :
  result (fetched env w) = Ret cur ->
  storeOf w = Some cached ->
  storeOf (world (cycle env w)) = Some (cached ++ freshOf env cur cached)
  /\ notified (trace (cycle env w))
     = (if (0 <? List.length cached)%nat then freshOf env cur cached else [])
  /\ saved (trace (cycle env w))
     = (if (0 <? List.length (newProducts cur cached))%nat
        then [cached ++ freshOf env cur cached] else [])
  /\ (forall n, downloadsOf n (trace (cycle env w))
                = downloadsOf n (trace (fetched env w)))
  /\ (saved (trace (cycle env w)) = [] ->
      cacheFile (world (cycle env w)) = cacheFile w).
Proof.
  intros Hr Hs. apply result_run in Hr.
  destruct (fetchProducts_inv extname env w) as (_ & Hw & Hn & Hsv & _).
  remember (world (fetched env w)) as wf eqn:Ewf.
  remember (trace (fetched env w)) as tf eqn:Etf.
  clear Ewf Etf.
  destruct (cycle_run _ _ _ _ _ _ _ Hr Hs) as (_ & C).
  fold (freshOf env cur cached) in C.
  rewrite <- freshOf_length with (env := env).
  assert (T : forall i l,
             notified (if (0 <? List.length cached)%nat
                       then notifyTrace env i l else [])
             = (if (0 <? List.length cached)%nat
                then stampFrom env i l else [])
             /\ saved (if (0 <? List.length cached)%nat
                       then notifyTrace env i l else []) = []
             /\ forall n, downloadsOf n (if (0 <? List.length cached)%nat
                                         then notifyTrace env i l else []) = 0).
  { intros i l. destruct (0 <? List.length cached)%nat; [|now repeat split].
    repeat split; auto using notifyTrace_notified, notifyTrace_saved,
                             notifyTrace_downloads. }
  destruct (T 0 (newProducts cur cached)) as (T1 & T2 & T3).
  destruct (0 <? List.length (freshOf env cur cached))%nat eqn:E;
    rewrite C; unfold world, trace; simpl fst; simpl snd.
  - rewrite !notified_app, !saved_app, Hn, Hsv, T1, T2. simpl.
    rewrite app_nil_r. repeat split.
    + unfold freshOf. now destruct (0 <? List.length cached)%nat.
    + intros n. rewrite !downloadsOf_app, T3. simpl. lia.
    + discriminate.
  - apply Nat.ltb_ge in E.
    assert (F : freshOf env cur cached = [])
      by (destruct (freshOf env cur cached); [reflexivity | simpl in E; lia]).
    rewrite !notified_app, !saved_app, Hn, Hsv, T1, T2. simpl.
    rewrite F, app_nil_r. repeat split.
    + rewrite <- Hs. now apply storeOf_cacheFile.
    + unfold freshOf in F. now destruct (0 <? List.length cached)%nat.
    + intros n. rewrite !downloadsOf_app, T3. lia.
    + intros _. exact Hw.
Qed.

(** C7. [loadCache] on a world in which the cache file does not exist
    returns the empty array: it does not throw, it leaves the files as
    they are and it performs no effect. *)
Theorem loadCache_missing_file (w : World) :
  cacheFile w = Absent -> loadCache w = (Ret [], w, []).
Proof.
  intros H. unfold loadCache. now rewrite H.
Qed.

(** C9. When the listing page cannot be fetched (the request fails or the
    response is not [ok]), the cycle changes nothing: the cache file and
    the images directory are as before, nothing is downloaded, notified or
    saved, and the next cycle runs as if this one had not happened. *)
Theorem listing_failure_changes_nothing (env : Env) (w : World) :
  listing env = Unreachable \/ (exists els, listing env = Response false els) ->
  world (cycle env w) = w
  /\ trace (cycle env w) = []
  /\ forall env', cycle env' (world (cycle env w)) = cycle env' w.
Proof.
  intros H. pose proof (fetchProducts_unreachable extname env w H) as F.
  assert (W : world (cycle env w) = w /\ trace (cycle env w) = []).
  { destruct (storeOf w) as [cached|] eqn:Hs.
    - destruct (cycle_run _ _ _ _ _ _ _ F Hs) as (_ & C). rewrite C.
      unfold newProducts. simpl.
      destruct (0 <? List.length cached)%nat; simpl; now split.
    - rewrite (cycle_corrupt extname env w Hs), F. now split. }
  destruct W as (W1 & W2). repeat split; auto.
  intros env'. now rewrite W1.
Qed.

(** C10. A cycle in which the filter keeps no product does not call
    [saveCache]: the cache file is left as it is, not rewritten. *)
Theorem no_new_product_no_save (env : Env) (w : World)
    (cur cached : list product) :
  result (fetched env w) = Ret cur ->
  storeOf w = Some cached ->
  newProducts cur cached = [] ->
  saved (trace (cycle env w)) = []
  /\ cacheFile (world (cycle env w)) = cacheFile w.
Proof.
  intros Hr Hs Hn.
  destruct (cycle_summary env w cached cur Hr Hs) as (_ & _ & S & _ & K).
  rewrite Hn in S. simpl in S. split; auto.
Qed.

Lemma isNew_spec (cached : list product) (p : product) :
  isNew cached p = true
  <-> forall k, In k cached -> name k <> name p.
Proof.
  unfold isNew. rewrite negb_true_iff. split.
  - intros H k Hk Heq.
    assert (E : existsb (fun c => name c =? name p) cached = true).
    { apply existsb_exists. exists k. split; [assumption|].
      now apply String.eqb_eq. }
    congruence.
  - intros H. destruct (existsb _ cached) eqn:E; [|reflexivity].
    apply existsb_exists in E. destruct E as (k & Hk & Heq).
    apply String.eqb_eq in Heq. now destruct (H k Hk).
Qed.

Lemma filter_subsequence {A} (f : A -> bool) (l : list A) :
  subsequence (filter f l) l.
Proof.
  induction l as [|x l IH]; simpl; [constructor|].
  destruct (f x); now constructor.
Qed.

(** C4. The filter of [checkForNewProducts] keeps a current record exactly
    when no cached record has the same name, equality of names being
    equality of the strings, character by character; the records kept
    stand in the order of the current array; and the filter is a function
    of the two arrays alone (it runs outside the effect monad), equal
    arguments giving the equal result. *)
Theorem newProducts_exact_name_diff (current known : list product) :
  (forall p, In p (newProducts current known)
             <-> In p current
                 /\ ~ exists k, In k known /\ name k = name p)
  /\ subsequence (newProducts current known) current
  /\ (forall a b, newProducts (a ++ b) known
                  = newProducts a known ++ newProducts b known)
  /\ (forall p, newProducts [p] known
                = if existsb (fun k => name k =? name p) known
                  then [] else [p]).
Proof.
  split; [|split; [|split]].
  - intros p. unfold newProducts. rewrite filter_In, isNew_spec.
    split; intros (H1 & H2); (split; [assumption|]).
    + intros (k & Hk & Heq). now apply (H2 k).
    + intros k Hk Heq. apply H2. now exists k.
  - apply filter_subsequence.
  - intros a b. apply filter_app.
  - intros p. unfold newProducts, isNew. simpl.
    now destruct (existsb _ known).
Qed.

Lemma newProducts_empty_cache (cur : list product) :
  newProducts cur [] = cur.
Proof.
  unfold newProducts. induction cur as [|p l IH]; [reflexivity|].
  simpl. now rewrite IH.
Qed.

(** X22. In the Slack-enabled script, on a cycle that finds the cache
    empty, nothing is notified and the records [fetchProducts] returned
    are what [loadCache] returns afterwards; on a cycle that finds it not
    empty, the records handed to [notifyNewProduct] are the new records,
    stamped, one call for each, in order. *)
Theorem first_run_is_silent_then_one_call_each (env : Env) (w : World)
    (cur cached : list product) :
  result (fetched env w) = Ret cur ->
  storeOf w = Some cached ->
  (cached = [] ->
     notified (trace (cycle env w)) = []
     /\ storeOf (world (cycle env w)) = Some cur
     /\ saved (trace (cycle env w))
        = match cur with [] => [] | _ :: _ => [cur] end)
  /\ (cached <> [] ->
        notified (trace (cycle env w))
        = stampFrom env 0 (newProducts cur cached)
        /\ List.length (notified (trace (cycle env w)))
           = List.length (newProducts cur cached)
        /\ map name (notified (trace (cycle env w)))
           = map name (newProducts cur cached)).
Proof.
  intros Hr Hs.
  destruct (cycle_summary env w cached cur Hr Hs) as (S & N & V & _).
  split.
  - intros ->. unfold freshOf in *. simpl in *.
    rewrite newProducts_empty_cache in *. repeat split; auto.
    now destruct cur.
  - intros Hne. unfold freshOf in N.
    destruct cached as [|c cached']; [congruence|]. simpl in N.
    rewrite N. repeat split.
    + apply stampFrom_length.
    + apply stampFrom_names.
Qed.

(** C1 (as the script does it). In a cycle that notifies new products
    from a non-empty cache, every call of [notifyNewProduct] comes before
    the one call of [saveCache], which is the last effect of the cycle and
    writes the cache followed by the records notified.  Between the two
    steps the cache file is still the old one, and it classifies every
    record notified as new. *)
Theorem notifications_precede_the_save (env : Env) (w : World)
    (cached : list product) :
  storeOf w = Some cached ->
  cached <> [] ->
  notified (trace (cycle env w)) <> [] ->
  let fresh := notified (trace (cycle env w)) in
  (exists t1, trace (cycle env w) = t1 ++ [ESave (cached ++ fresh)]
              /\ saved t1 = [] /\ notified t1 = fresh)
  /\ storeOf (world (cycle env w)) = Some (cached ++ fresh)
  /\ storeOf (world (detectAndNotify extname env w)) = Some cached
  /\ trace (detectAndNotify extname env w)
     ++ [ESave (cached ++ fresh)] = trace (cycle env w)
  /\ (forall p, In p fresh -> isNew cached p = true).
Proof.
  intros Hs Hne Hnot fresh.
  destruct (fetchProducts_returns extname env w)
    as (cur & wf & tf & Hf & Hw).
  destruct (fetchProducts_inv extname env w) as (_ & _ & Hn & Hsv & _).
  rewrite Hf in Hn, Hsv. unfold trace in Hn, Hsv. simpl in Hn, Hsv.
  destruct (cycle_run _ _ _ _ _ _ _ Hf Hs) as (D & C).
  destruct cached as [|c cached']; [congruence|].
  simpl in D, C.
  set (known := c :: cached') in *.
  set (new := stampFrom env 0 (newProducts cur known)) in *.
  assert (F : fresh = new /\ (0 <? List.length new)%nat = true).
  { subst fresh. destruct (0 <? List.length new)%nat eqn:E.
    - rewrite C. unfold trace. simpl.
      rewrite !notified_app, Hn, notifyTrace_notified. simpl.
      now rewrite app_nil_r.
    - exfalso. apply Hnot. rewrite C. unfold trace. simpl.
      rewrite notified_app, Hn, notifyTrace_notified. simpl.
      apply Nat.ltb_ge in E. fold new.
      destruct new; [reflexivity | simpl in E; lia]. }
  destruct F as (F & E). rewrite E in C. rewrite F.
  rewrite C, D. unfold world, trace. simpl.
  repeat split.
  - exists (tf ++ notifyTrace env 0 (newProducts cur known)).
    rewrite <- app_assoc. repeat split.
    + now rewrite saved_app, Hsv, notifyTrace_saved.
    + now rewrite notified_app, Hn, notifyTrace_notified.
  - rewrite <- Hs. now apply storeOf_cacheFile.
  - now rewrite <- app_assoc.
  - intros p Hp. subst new.
    destruct (stampFrom_In env _ p 0 Hp) as (p0 & time & Hin & ->).
    apply filter_In in Hin. destruct Hin as (_ & Hin). exact Hin.
Qed.

(** C3 (as the script does it). When the image of one listed product has
    to be downloaded and the download fails, the [catch] of
    [fetchProducts] makes it return the empty array: the cycle notifies
    nothing and saves nothing, and the cache file is as before, so the
    product is still absent from it on the next cycle. *)
Theorem image_failure_abandons_the_cycle (env : Env) (w : World)
    (els : list element) (raw : rawFields) (cached : list product) :
  listing env = Response true els ->
  storeOf w = Some cached ->
  In (Some raw) els ->
  cachedImageId (find (fun p => name p =? rawName raw) cached) = None ->
  imageHost env (normalizeImageUrl ("https:" ++ rawMainImage raw)%string)
  = None ->
  result (fetched env w) = Ret []
  /\ notified (trace (cycle env w)) = []
  /\ saved (trace (cycle env w)) = []
  /\ cacheFile (world (cycle env w)) = cacheFile w.
Proof.
  intros Hl Hs Hin Hc Hh.
  assert (R : result (fetched env w) = Ret []).
  { unfold fetchProducts, tryCatch. rewrite Hl. simpl. unfold bind.
    rewrite (loadCache_storeOf w cached Hs).
    destruct (fetchLoop_throws extname env cached raw els Hin Hc Hh 0 [] w)
      as (e & He).
    destruct (fetchLoop extname env cached els 0 [] w) as [[r w'] t].
    unfold result in He. simpl in He. subst r. reflexivity. }
  split; [exact R|].
  destruct (cycle_summary env w cached [] R Hs) as (_ & N & V & _ & K).
  unfold freshOf, newProducts in N. simpl in N, V.
  assert (N' : notified (trace (cycle env w)) = [])
    by (rewrite N; now destruct (0 <? List.length cached)%nat).
  auto.
Qed.

Lemma NoDup_map_filter {A B} (f : A -> B) (g : A -> bool) (l : list A) :
  NoDup (map f l) -> NoDup (map f (filter g l)).
Proof.
  induction l as [|x l IH]; simpl; intros H; [constructor|].
  inversion H as [|y l' Hx Hl]; subst.
  destruct (g x); simpl; [|auto].
  constructor; [|auto].
  intros Hin. apply Hx. apply in_map_iff in Hin.
  destruct Hin as (z & Hz & Hin). apply filter_In in Hin.
  apply in_map_iff. exists z. tauto.
Qed.

Lemma fetched_names_distinct (env : Env) (w : World) (cur : list product) :
  NoDup (listedNames (listing env)) ->
  result (fetched env w) = Ret cur ->
  NoDup (map name cur).
Proof.
  intros Hd Hr.
  destruct (fetchProducts_inv extname env w) as (_ & _ & _ & _ & _ & _ & H).
  destruct (H cur Hr) as [-> | (Hn & _)]; [constructor|].
  now rewrite Hn.
Qed.

Lemma store_names_distinct (env : Env) (cur cached : list product) :
  NoDup (map name cur) ->
  NoDup (map name cached) ->
  NoDup (map name (cached ++ freshOf env cur cached)).
Proof.
  intros Hc Hk. rewrite map_app, freshOf_names.
  apply NoDup_app; [assumption | now apply NoDup_map_filter |].
  intros n Hn Hn'. apply in_map_iff in Hn, Hn'.
  destruct Hn as (k & Hk1 & Hk2). destruct Hn' as (p & Hp1 & Hp2).
  apply filter_In in Hp2. destruct Hp2 as (_ & Hp2).
  apply (proj1 (isNew_spec cached p) Hp2 k Hk2). congruence.
Qed.

(** C5 (as the script does it). Starting from an empty cache, after any
    number of cycles none of whose listings names a product twice, the
    cache file holds an array in which no two records have the same
    name. *)
Theorem distinct_listings_keep_names_unique (w : World) :
  reachableDistinct extname w -> uniqueNames w.
Proof.
  induction 1 as [w Hs | env w Hr IH Hd].
  - exists []. split; [assumption | constructor].
  - destruct IH as (cached & Hs & Hk).
    destruct (fetchProducts_inv extname env w) as ((cur & Hc) & _).
    destruct (cycle_summary env w cached cur Hc Hs) as (S & _).
    exists (cached ++ freshOf env cur cached). split; [exact S|].
    apply store_names_distinct; [|assumption].
    now apply fetched_names_distinct with (env := env) (w := w).
Qed.

Lemma find_app_first {A} (f : A -> bool) (l1 l2 : list A) :
  find f (l1 ++ l2)
  = match find f l1 with Some x => Some x | None => find f l2 end.
Proof.
  induction l1 as [|x l1 IH]; [reflexivity|].
  simpl. now destruct (f x).
Qed.

Lemma count_occ_zero_not_named (l : list product) (p : product) :
  count_occ string_dec (map name l) (name p) = 0 -> ~ In p l.
Proof.
  intros H Hin. apply (count_occ_not_In string_dec) in H.
  apply H. now apply in_map.
Qed.

(** A name that occurs once finds its record. *)
Lemma find_by_name_once (l : list product) (p : product) :
  count_occ string_dec (map name l) (name p) <= 1 -> In p l ->
  find (fun c => name c =? name p) l = Some p.
Proof.
  induction l as [|x l IH]; intros Hc Hin; [destruct Hin|].
  simpl in Hc |- *.
  destruct (string_dec (name x) (name p)) as [E|E].
  - rewrite E, String.eqb_refl. destruct Hin as [-> | Hin]; [reflexivity|].
    exfalso. apply (count_occ_zero_not_named l p); [lia | assumption].
  - destruct Hin as [-> | Hin]; [congruence|].
    apply String.eqb_neq in E. rewrite E. now apply IH.
Qed.

Lemma count_occ_names_filter (g : product -> bool) (l : list product)
    (n : string) :
  count_occ string_dec (map name (filter g l)) n
  <= count_occ string_dec (map name l) n.
Proof.
  induction l as [|x l IH]; simpl; [lia|].
  destruct (g x); simpl; destruct (string_dec (name x) n); lia.
Qed.

Lemma cachedImageId_stamped (env : Env) (n : string) (l : list product) :
  forall i,
    cachedImageId (find (fun c => name c =? n) (stampFrom env i l))
    = cachedImageId (find (fun c => name c =? n) l).
Proof.
  induction l as [|x l IH]; intros i; [reflexivity|].
  simpl. destruct (name x =? n); [reflexivity | apply IH].
Qed.

Lemma cachedImageId_freshOf (env : Env) (n : string)
    (cur cached : list product) :
  cachedImageId (find (fun c => name c =? n) (freshOf env cur cached))
  = cachedImageId (find (fun c => name c =? n) (newProducts cur cached)).
Proof.
  unfold freshOf. destruct (0 <? List.length cached)%nat; [|reflexivity].
  apply cachedImageId_stamped.
Qed.

(** After a cycle, the cache answers a lookup by the name of a fetched
    record with the [imageId] of that record. *)
Lemma stored_imageId_after_cycle (env : Env) (cached cur : list product)
    (p : product) :
  count_occ string_dec (map name cur) (name p) <= 1 ->
  Forall (resolvedFrom cached) cur ->
  In p cur ->
  (forall c, find (fun k => name k =? name p) cached = Some c ->
             cachedImageId (Some c) <> None) ->
  exists id,
    imageId p = Some id
    /\ cachedImageId (find (fun k => name k =? name p)
                           (cached ++ freshOf env cur cached)) = Some id.
Proof.
  intros Hd Hf Hin Hk.
  destruct (proj1 (Forall_forall _ _) Hf p Hin) as (id & Hid & Hne & Hag).
  exists id. split; [assumption|].
  rewrite find_app_first.
  destruct (find (fun k => name k =? name p) cached) as [c|] eqn:E.
  - specialize (Hk c eq_refl).
    destruct (cachedImageId (Some c)) as [id'|] eqn:C; [|congruence].
    now rewrite (Hag id' eq_refl).
  - rewrite cachedImageId_freshOf.
    assert (Hnew : In p (newProducts cur cached)).
    { apply filter_In. split; [assumption|]. apply isNew_spec.
      intros k Hk' Heq. pose proof (find_none _ _ E k Hk') as F.
      simpl in F. apply String.eqb_neq in F. contradiction. }
    rewrite find_by_name_once; [| |assumption].
    2:{ pose proof (count_occ_names_filter (isNew cached) cur (name p)).
        unfold newProducts. lia. }
    unfold cachedImageId. rewrite Hid.
    apply String.eqb_neq in Hne. now rewrite Hne.
Qed.

(** C6 (as the script does it). Let the first of two consecutive cycles
    start on a readable cache that has no record for the name, or whose
    first record for the name carries a non-empty [imageId], and let its
    listing show the name once.  If the [fetchProducts] of the first
    cycle returns a record of that name, so that the cache holds a record
    of the name after that cycle, and the [fetchProducts] of the second
    cycle returns a record of that name, then the two records carry the
    same [imageId], and the two cycles request the image of the name at
    most once. *)
Theorem imageId_stable_when_cached_with_id (n : string) (env1 env2 : Env)
    (w0 : World) (cached : list product) :
  storeOf w0 = Some cached ->
  count_occ string_dec (listedNames (listing env1)) n <= 1 ->
  (forall c, find (fun k => name k =? n) cached = Some c ->
             cachedImageId (Some c) <> None) ->
  imageIdStableFor extname n env1 env2 w0.
Proof.
  intros Hs Hd Hk cur1 cur2 p1 p2 store1 Hr1 Hin1 Hn1 Hs1 _ Hr2 Hin2 Hn2.
  destruct (fetchProducts_inv extname env1 w0)
    as (_ & _ & _ & _ & Hcnt & _ & Hcur1).
  destruct (Hcur1 cur1 Hr1) as [-> | (Hnames & Hres)]; [destruct Hin1|].
  specialize (Hres cached Hs).
  destruct (cycle_summary env1 w0 cached cur1 Hr1 Hs) as (S1 & _ & _ & D1 & _).
  rewrite S1 in Hs1. inversion Hs1; subst store1. clear Hs1.
  subst n.
  assert (Hd1 : count_occ string_dec (map name cur1) (name p1) <= 1)
    by now rewrite Hnames.
  destruct (stored_imageId_after_cycle env1 cached cur1 p1 Hd1 Hres Hin1 Hk)
    as (id & Hid & Hst).
  destruct (fetchProducts_inv extname env2 (world (cycle env1 w0)))
    as (_ & _ & _ & _ & _ & Hzero & Hcur2).
  destruct (Hcur2 cur2 Hr2) as [-> | (_ & Hres2)]; [destruct Hin2|].
  specialize (Hres2 _ S1).
  destruct (proj1 (Forall_forall _ _) Hres2 p2 Hin2) as (id2 & Hid2 & _ & Hag).
  rewrite Hn2 in Hag. rewrite (Hag id Hst) in Hid2.
  split; [congruence|].
  rewrite downloadsOf_app, D1.
  destruct (cycle_summary env2 _ _ cur2 Hr2 S1) as (_ & _ & _ & D2 & _).
  rewrite D2, (Hzero _ _ _ S1 Hst).
  specialize (Hcnt (name p1)). lia.
Qed.

(** C8 (as the script does it). When [enableBot] is [false] in the
    [slack] section of the configuration, [sendToSlack] does nothing and
    throws nothing. *)
Theorem sendToSlack_disabled_is_a_no_op (c : config) :
  botDisabled c = true -> deliveryIsNoOp c.
Proof.
  intros H n pr link img w. unfold sendToSlack. now rewrite H.
Qed.

(** Unless the flag is [false], a configuration with a [slack] section is
    posted with, token and channel or not. *)
Lemma sendToSlack_posts (c : config) (s : slackConfig) (n pr link : string)
    (img : option string) (w : World) :
  slack c = Some s -> enableBot s <> Some false ->
  sendToSlack c n pr link img w
  = (Ret tt, w,
     [EPost (mkMessage (token s) (channelName s) n pr link img)]).
Proof.
  intros Hs He. unfold sendToSlack, botDisabled. rewrite Hs.
  destruct (enableBot s) as [[|]|]; try reflexivity. congruence.
Qed.

Lemma sendToSlack_without_section (c : config) (n pr link : string)
    (img : option string) (w : World) :
  slack c = None ->
  sendToSlack c n pr link img w = (Throw TypeError, w, []).
Proof. unfold sendToSlack, botDisabled. now intros ->. Qed.

End Properties.

(** ** The properties on the sample data *)

Section Samples.

Import Sample.

Local Abbreviation cycle := (checkForNewProducts ext).
Local Abbreviation fetched := (fetchProducts ext).

Lemma loadCache_missing_file_witness :
  cacheFile emptyWorld = Absent
  /\ loadCache emptyWorld = (Ret [], emptyWorld, []).
Proof.
  split; [reflexivity|].
  apply (loadCache_missing_file emptyWorld). reflexivity.
Defined.

Lemma listing_failure_changes_nothing_witness :
  (listing errorEnv = Unreachable
   \/ exists els, listing errorEnv = Response false els)
  /\ world (cycle errorEnv steadyWorld) = steadyWorld
  /\ trace (cycle errorEnv steadyWorld) = []
  /\ forall env', cycle env' (world (cycle errorEnv steadyWorld))
                  = cycle env' steadyWorld.
Proof.
  assert (H : listing errorEnv = Unreachable
              \/ exists els, listing errorEnv = Response false els)
    by (right; exists []; reflexivity).
  split; [exact H|].
  exact (listing_failure_changes_nothing ext errorEnv steadyWorld H).
Defined.

Lemma no_new_product_no_save_witness :
  result (fetched firstDraw steadyWorld) = Ret [krakenWith "00aa"]
  /\ storeOf steadyWorld = Some [known]
  /\ newProducts [krakenWith "00aa"] [known] = []
  /\ saved (trace (cycle firstDraw steadyWorld)) = []
  /\ cacheFile (world (cycle firstDraw steadyWorld)) = cacheFile steadyWorld.
Proof.
  assert (H1 : result (fetched firstDraw steadyWorld)
               = Ret [krakenWith "00aa"]) by (vm_compute; reflexivity).
  assert (H2 : storeOf steadyWorld = Some [known]) by reflexivity.
  assert (H3 : newProducts [krakenWith "00aa"] [known] = [])
    by (vm_compute; reflexivity).
  repeat (split; [assumption|]).
  exact (no_new_product_no_save ext firstDraw steadyWorld _ _ H1 H2 H3).
Defined.

Lemma first_run_is_silent_witness :
  (result (fetched steadyEnv emptyWorld) = Ret [krakenWith id1; talonWith id2]
   /\ storeOf emptyWorld = Some []
   /\ notified (trace (cycle steadyEnv emptyWorld)) = []
   /\ storeOf (world (cycle steadyEnv emptyWorld))
      = Some [krakenWith id1; talonWith id2])
  /\ (result (fetched steadyEnv steadyWorld)
      = Ret [krakenWith "00aa"; talonWith id2]
      /\ storeOf steadyWorld = Some [known]
      /\ notified (trace (cycle steadyEnv steadyWorld))
         = [stamp (clockOf 0) (talonWith id2)]).
Proof.
  split.
  - assert (H1 : result (fetched steadyEnv emptyWorld)
                 = Ret [krakenWith id1; talonWith id2])
      by (vm_compute; reflexivity).
    assert (H2 : storeOf emptyWorld = Some []) by reflexivity.
    repeat (split; [assumption|]).
    destruct (first_run_is_silent_then_one_call_each
                ext steadyEnv emptyWorld _ _ H1 H2) as (F & _).
    destruct (F eq_refl) as (N & S & _). split; assumption.
  - assert (H1 : result (fetched steadyEnv steadyWorld)
                 = Ret [krakenWith "00aa"; talonWith id2])
      by (vm_compute; reflexivity).
    assert (H2 : storeOf steadyWorld = Some [known]) by reflexivity.
    repeat (split; [assumption|]).
    destruct (first_run_is_silent_then_one_call_each
                ext steadyEnv steadyWorld _ _ H1 H2) as (_ & F).
    assert (H3 : [known] <> []) by discriminate.
    destruct (F H3) as (N & _). exact N.
Defined.

Lemma notifications_precede_the_save_witness :
  storeOf steadyWorld = Some [known]
  /\ [known] <> []
  /\ notified (trace (cycle steadyEnv steadyWorld)) <> []
  /\ (exists t1,
        trace (cycle steadyEnv steadyWorld)
        = t1 ++ [ESave ([known]
                        ++ notified (trace (cycle steadyEnv steadyWorld)))]
        /\ saved t1 = []
        /\ notified t1 = notified (trace (cycle steadyEnv steadyWorld)))
  /\ storeOf (world (detectAndNotify ext steadyEnv steadyWorld))
     = Some [known].
Proof.
  assert (H1 : storeOf steadyWorld = Some [known]) by reflexivity.
  assert (H2 : [known] <> []) by discriminate.
  assert (H3 : notified (trace (cycle steadyEnv steadyWorld)) <> [])
    by (vm_compute; discriminate).
  repeat (split; [assumption|]).
  destruct (notifications_precede_the_save ext steadyEnv steadyWorld
              [known] H1 H2 H3) as (A & _ & B & _).
  split; assumption.
Defined.

Lemma image_failure_abandons_the_cycle_witness :
  listing outageEnv = Response true outageListing
  /\ storeOf steadyWorld = Some [known]
  /\ In (Some rawC) outageListing
  /\ cachedImageId (find (fun p => name p =? rawName rawC) [known]) = None
  /\ imageHost outageEnv
       (normalizeImageUrl ("https:" ++ rawMainImage rawC)%string) = None
  /\ result (fetched outageEnv steadyWorld) = Ret []
  /\ notified (trace (cycle outageEnv steadyWorld)) = []
  /\ saved (trace (cycle outageEnv steadyWorld)) = []
  /\ cacheFile (world (cycle outageEnv steadyWorld)) = cacheFile steadyWorld.
Proof.
  assert (H1 : listing outageEnv = Response true outageListing)
    by reflexivity.
  assert (H2 : storeOf steadyWorld = Some [known]) by reflexivity.
  assert (H3 : In (Some rawC) outageListing) by (right; right; left; reflexivity).
  assert (H4 : cachedImageId
                 (find (fun p => name p =? rawName rawC) [known]) = None)
    by (vm_compute; reflexivity).
  assert (H5 : imageHost outageEnv
                 (normalizeImageUrl ("https:" ++ rawMainImage rawC)%string)
               = None) by (vm_compute; reflexivity).
  repeat (split; [assumption|]).
  exact (image_failure_abandons_the_cycle ext outageEnv steadyWorld
           outageListing rawC [known] H1 H2 H3 H4 H5).
Defined.

Lemma distinct_listings_keep_names_unique_witness :
  reachableDistinct ext (world (cycle steadyEnv emptyWorld))
  /\ uniqueNames (world (cycle steadyEnv emptyWorld)).
Proof.
  assert (H : reachableDistinct ext (world (cycle steadyEnv emptyWorld))).
  { apply reachableDistinct_cycle.
    - apply reachableDistinct_start. reflexivity.
    - simpl. constructor.
      + intros [E|[]]. discriminate E.
      + constructor; [intros [] | constructor]. }
  split; [exact H|].
  exact (distinct_listings_keep_names_unique ext _ H).
Defined.

Lemma imageId_stable_when_cached_with_id_witness :
  storeOf steadyWorld = Some [known]
  /\ count_occ string_dec (listedNames (listing steadyEnv)) "Kraken X60" <= 1
  /\ (forall c, find (fun k => name k =? "Kraken X60") [known] = Some c ->
                cachedImageId (Some c) <> None)
  /\ imageIdStableFor ext "Kraken X60" steadyEnv secondDraw steadyWorld.
Proof.
  assert (H1 : storeOf steadyWorld = Some [known]) by reflexivity.
  assert (H2 : count_occ string_dec (listedNames (listing steadyEnv))
                 "Kraken X60" <= 1) by (vm_compute; lia).
  assert (H3 : forall c,
             find (fun k => name k =? "Kraken X60") [known] = Some c ->
             cachedImageId (Some c) <> None).
  { intros c H. vm_compute in H. inversion H; subst c. discriminate. }
  repeat (split; [assumption|]).
  exact (imageId_stable_when_cached_with_id ext "Kraken X60" steadyEnv
           secondDraw steadyWorld [known] H1 H2 H3).
Defined.

(** C1, as stated, fails: with the first product cached and a second one
    listed, the second is handed to [notifyNewProduct] before anything is
    saved, and a cycle started from the files as they are between the two
    steps notifies it again. *)
Lemma steady_cycle_notifies_before_it_saves :
  storeOf steadyWorld = Some [known]
  /\ notified (trace (cycle steadyEnv steadyWorld)) <> []
  /\ ~ persistedBeforeNotified (trace (cycle steadyEnv steadyWorld))
  /\ notified (trace (cycle steadyEnv
                        (world (detectAndNotify ext steadyEnv steadyWorld))))
     = notified (trace (cycle steadyEnv steadyWorld)).
Proof.
  split; [reflexivity|].
  split; [vm_compute; discriminate|].
  split; [|vm_compute; reflexivity].
  intros H.
  destruct (H [EDownload "Talon FXS"
                 "https://wcproducts.com/cdn/shop/files/talon_145x.png";
               EWriteImage (id2 ++ ".png")%string]
              (stamp (clockOf 0) (talonWith id2))
              (slackEvents slackOn (stamp (clockOf 0) (talonWith id2))
               ++ [ESave [known; stamp (clockOf 0) (talonWith id2)]]))
    as (ps & Hin & _).
  - vm_compute. reflexivity.
  - destruct Hin as [E|[E|[]]]; discriminate E.
Qed.

(** C3, as stated, fails: with the first product cached, a second one new
    and its image at hand, and a third one whose image cannot be had, the
    second is neither notified nor saved. *)
Lemma image_outage_drops_the_other_new_product :
  ~ isolatesImageFailure ext outageEnv steadyWorld.
Proof.
  intros H.
  destruct (H outageListing rawB [known]) as ((p & Hin & _) & _).
  - reflexivity.
  - repeat constructor; discriminate.
  - reflexivity.
  - discriminate.
  - right; left; reflexivity.
  - vm_compute. discriminate.
  - vm_compute. reflexivity.
  - vm_compute in Hin. exact Hin.
Qed.

(** C5, as stated, fails: one cycle from the empty cache on a listing
    that shows a product twice saves two records of the same name. *)
Lemma repeated_listing_duplicates_a_name :
  ~ (forall w, reachable ext w -> uniqueNames w).
Proof.
  intros H.
  destruct (H (world (cycle repeatedEnv emptyWorld))) as (ps & Hs & Hd).
  - apply reachable_cycle. apply reachable_start. reflexivity.
  - vm_compute in Hs. inversion Hs; subst ps. clear Hs.
    simpl in Hd. inversion Hd as [|x l Hx Hl]; subst.
    apply Hx. left. reflexivity.
Qed.

(** C6, as stated, fails: a cached record without [imageId] is resolved
    anew in each cycle, with a new identifier and a new download. *)
Lemma record_without_imageId_is_downloaded_each_cycle :
  ~ imageIdStableFor ext "Kraken X60" firstDraw secondDraw bareWorld.
Proof.
  intros H.
  destruct (H [krakenWith id1] [krakenWith id101]
              (krakenWith id1) (krakenWith id101) [bare]) as (Hid & Hdl).
  - vm_compute. reflexivity.
  - left. reflexivity.
  - reflexivity.
  - vm_compute. reflexivity.
  - exists bare. split; [left|]; reflexivity.
  - vm_compute. reflexivity.
  - left. reflexivity.
  - reflexivity.
  - vm_compute in Hdl. lia.
Qed.

(** C8, as stated, fails: with a [slack] section that has neither token
    nor channel the message is posted all the same, and with no [slack]
    section at all reading [config.slack.token] throws, which leaves the
    cycle with the rejected promise of the call. *)
Lemma sendToSlack_without_credentials_is_no_no_op :
  credentialsAbsent unconfigured /\ ~ deliveryIsNoOp unconfigured
  /\ credentialsAbsent noSlack /\ ~ deliveryIsNoOp noSlack
  /\ notifyNewProduct noSlack (talonWith id2) steadyWorld
     = (Ret tt, steadyWorld, [ENotify (talonWith id2); ERejected TypeError]).
Proof.
  split; [split; reflexivity|].
  split; [intros H; specialize (H "Talon FXS" "$89.99" "/p" None steadyWorld);
          discriminate H|].
  split; [exact I|].
  split; [intros H; specialize (H "Talon FXS" "$89.99" "/p" None steadyWorld);
          discriminate H|].
  reflexivity.
Qed.

Lemma sendToSlack_disabled_is_a_no_op_witness :
  botDisabled slackOff = true /\ deliveryIsNoOp slackOff.
Proof.
  split; [reflexivity|].
  apply (sendToSlack_disabled_is_a_no_op slackOff). reflexivity.
Defined.

(** [main.js] has no guard on the size of the cache: its first cycle logs
    every listed product as new.  In the rest it goes as the script above:
    it notifies before it saves, an image that cannot be had empties the
    cycle, and a cycle without new product saves nothing. *)
Remark mainjs_first_cycle_notifies_every_product :
  map name (notified (trace (MainJs.checkForNewProducts ext steadyEnv
                               emptyWorld)))
  = ["Kraken X60"; "Talon FXS"].
Proof. vm_compute. reflexivity. Qed.

Remark mainjs_cycles_on_the_samples :
  (exists p t1 t2,
     trace (MainJs.checkForNewProducts ext steadyEnv steadyWorld)
     = t1 ++ ENotify p :: t2 /\ saved t1 = [] /\ saved t2 <> [])
  /\ trace (MainJs.checkForNewProducts ext outageEnv steadyWorld)
     = trace (fetched outageEnv steadyWorld)
  /\ world (MainJs.checkForNewProducts ext firstDraw steadyWorld)
     = steadyWorld.
Proof.
  split; [|split; vm_compute; reflexivity].
  exists (stamp (clockOf 0)
            (MainJs.productOf rawB id2)),
         [EDownload "Talon FXS"
            "https://wcproducts.com/cdn/shop/files/talon_145x.png";
          EWriteImage (id2 ++ ".png")%string],
         [ESave [known; stamp (clockOf 0) (MainJs.productOf rawB id2)]].
  split; [vm_compute; reflexivity|].
  split; [reflexivity | discriminate].
Qed.

End Samples.

(** ** More on [fetchProducts] *)

Section FetchProperties.

Variable extname : string -> string.

Local Abbreviation cycle := (checkForNewProducts extname).
Local Abbreviation fetched := (fetchProducts extname).

Lemma posted_app (t1 t2 : list event) :
  posted (t1 ++ t2) = posted t1 ++ posted t2.
Proof.
  induction t1 as [|e t1 IH]; [reflexivity|].
  destruct e; simpl; rewrite IH; reflexivity.
Qed.

Lemma rejected_app (t1 t2 : list event) :
  rejected (t1 ++ t2) = rejected t1 ++ rejected t2.
Proof.
  induction t1 as [|e t1 IH]; [reflexivity|].
  destruct e; simpl; rewrite IH; reflexivity.
Qed.

Lemma written_app (t1 t2 : list event) :
  written (t1 ++ t2) = written t1 ++ written t2.
Proof.
  induction t1 as [|e t1 IH]; [reflexivity|].
  destruct e; simpl; rewrite IH; reflexivity.
Qed.

Lemma hasFile_writeFile_old (f g : string) (body : list byte) (w : World) :
  hasFile f w ->
  hasFile f (mkWorld (cacheFile w) (writeFile g body (imagesDir w))).
Proof.
  unfold hasFile, writeFile. simpl. intros H.
  destruct (string_dec g f) as [E|E]; [now left|]. right.
  apply in_map_iff in H. destruct H as ((f', b) & Hf & Hin).
  simpl in Hf. subst f'. apply in_map_iff. exists (f, b). split; [reflexivity|].
  apply filter_In. split; [assumption|]. simpl.
  apply negb_true_iff. apply String.eqb_neq. congruence.
Qed.

Lemma hasFile_writeFile_new (g : string) (body : list byte) (w : World) :
  hasFile g (mkWorld (cacheFile w) (writeFile g body (imagesDir w))).
Proof. unfold hasFile, writeFile. simpl. now left. Qed.

(** The loop posts nothing, leaves no rejection, removes no image file,
    and every file it writes is there when it ends. *)
Lemma fetchLoop_files (env : Env) (cached : list product)
    (elements : list element) :
  forall (i : nat) (acc : list product) (w : World),
    let r := fetchLoop extname env cached elements i acc w in
    posted (trace r) = [] /\ rejected (trace r) = []
    /\ (forall f, hasFile f w -> hasFile f (world r))
    /\ (forall f, In f (written (trace r)) -> hasFile f (world r))
    /\ List.length (written (trace r)) <= List.length (requested (trace r))
    /\ List.length (requested (trace r)) <= List.length elements.
Proof.
  induction elements as [|el rest IH]; intros i acc w.
  - unfold trace, world. simpl. repeat split; auto. intros f [].
  - destruct el as [raw|].
    2:{ unfold trace, world. simpl. repeat split; auto using Nat.le_0_l.
        intros f []. }
    rewrite fetchLoop_some.
    remember (normalizeImageUrl ("https:" ++ rawMainImage raw)%string)
      as url eqn:Eurl.
    pose proof (resolveImage_run extname env cached i (rawName raw) url w) as R.
    unfold bind.
    destruct (cachedImageId (find (fun p => name p =? rawName raw) cached))
      as [id|].
    + rewrite R.
      specialize (IH (S i) (acc ++ [productOf raw id]) w).
      destruct (fetchLoop extname env cached rest (S i)
                  (acc ++ [productOf raw id]) w) as [[r' w'] t'].
      unfold trace, world in *. simpl in *.
      destruct IH as (H1 & H2 & H3 & H4 & H5 & H6).
      repeat split; auto.
    + destruct (imageHost env url) as [body|].
      * rewrite R.
        remember (randomHex16 (entropy env i)) as id eqn:Eid.
        match goal with
        | |- context [fetchLoop extname env cached rest (S i) ?a ?w1] =>
            specialize (IH (S i) a w1);
            destruct (fetchLoop extname env cached rest (S i) a w1)
              as [[r' w'] t']
        end.
        unfold trace, world in *. simpl in *.
        destruct IH as (H1 & H2 & H3 & H4 & H5 & H6).
        repeat split; auto; try lia.
        -- intros f Hf. apply H3. now apply hasFile_writeFile_old.
        -- intros f [<-|Hf]; [|now apply H4].
           apply H3. apply hasFile_writeFile_new.
      * rewrite R. unfold trace, world. simpl.
        repeat split; auto; try lia; try (intros f []).
Qed.

(** The loop on elements that can all be read and resolved. *)
Lemma fetchLoop_success (env : Env) (cached : list product)
    (raws : list rawFields) :
  Forall (resolvable env cached) raws ->
  forall (i : nat) (acc : list product) (w : World),
    exists w' t,
      fetchLoop extname env cached (map Some raws) i acc w
      = (Ret (acc ++ recordsOf env cached i raws), w', t)
      /\ written t = filesOf extname env cached i raws.
Proof.
  induction 1 as [|raw rest Hraw Hrest IH]; intros i acc w.
  - exists w, []. simpl. unfold ret. now rewrite app_nil_r.
  - change (map Some (raw :: rest)) with (Some raw :: map Some rest).
    rewrite fetchLoop_some. fold (urlOf raw).
    pose proof (resolveImage_run extname env cached i (rawName raw)
                  (urlOf raw) w) as R.
    unfold bind. cbn [recordsOf filesOf]. unfold idFor.
    destruct (cachedImageId (find (fun p => name p =? rawName raw) cached))
      as [id|] eqn:C.
    + rewrite R.
      destruct (IH (S i) (acc ++ [productOf raw id]) w) as (w' & t & E & W).
      rewrite E. exists w', t. rewrite <- app_assoc. now split.
    + destruct Hraw as [Hc|Hh]; [congruence|].
      destruct (imageHost env (urlOf raw)) as [body|]; [|congruence].
      rewrite R.
      match goal with
      | |- context [fetchLoop extname env cached (map Some rest) (S i) ?a ?w1] =>
          destruct (IH (S i) a w1) as (w' & t & E & W)
      end.
      rewrite E. eexists. eexists. rewrite <- app_assoc.
      split; [reflexivity|]. cbn [written app]. now rewrite W.
Qed.

(** An element the selectors cannot read makes the loop throw. *)
Lemma fetchLoop_throws_unreadable (env : Env) (cached : list product)
    (elements : list element) :
  In None elements ->
  forall (i : nat) (acc : list product) (w : World),
    exists e, result (fetchLoop extname env cached elements i acc w) = Throw e.
Proof.
  induction elements as [|el rest IH]; intros Hin i acc w; [destruct Hin|].
  destruct el as [raw|]; [|exists TypeError; reflexivity].
  destruct Hin as [Hin|Hin]; [discriminate|].
  rewrite fetchLoop_some.
  remember (normalizeImageUrl ("https:" ++ rawMainImage raw)%string)
    as url eqn:Eurl.
  pose proof (resolveImage_run extname env cached i (rawName raw) url w) as R.
  unfold bind.
  destruct (cachedImageId (find (fun p => name p =? rawName raw) cached))
    as [id|].
  - rewrite R.
    destruct (IH Hin (S i) (acc ++ [productOf raw id]) w) as (e & He).
    destruct (fetchLoop extname env cached rest (S i)
                (acc ++ [productOf raw id]) w) as [[r' w'] t'].
    exists e. exact He.
  - destruct (imageHost env url) as [body|].
    + rewrite R.
      match goal with
      | |- context [fetchLoop extname env cached rest (S i) ?a ?w1] =>
          destruct (IH Hin (S i) a w1) as (e & He);
          destruct (fetchLoop extname env cached rest (S i) a w1)
            as [[r' w'] t']
      end.
      exists e. exact He.
    + rewrite R. exists NetworkError. reflexivity.
Qed.

End FetchProperties.

Section FetchTheorems.

Variable extname : string -> string.

Local Abbreviation cycle := (checkForNewProducts extname).
Local Abbreviation fetched := (fetchProducts extname).

Lemma notifyTrace_written (env : Env) (products : list product) :
  forall i, written (notifyTrace env i products) = []
            /\ requested (notifyTrace env i products) = [].
Proof.
  induction products as [|p rest IH]; intros i; [now split|].
  simpl. unfold slackEvents.
  destruct (botDisabled (cfg env)); [apply IH|].
  destruct (slack (cfg env)); simpl; apply IH.
Qed.

Lemma requested_app (t1 t2 : list event) :
  requested (t1 ++ t2) = requested t1 ++ requested t2.
Proof.
  induction t1 as [|e t1 IH]; [reflexivity|].
  destruct e; simpl; rewrite IH; reflexivity.
Qed.

(** What [fetchProducts] does to the images directory. *)
Lemma fetchProducts_files (env : Env) (w : World) :
  let r := fetched env w in
  posted (trace r) = [] /\ rejected (trace r) = []
  /\ (forall f, hasFile f w -> hasFile f (world r))
  /\ (forall f, In f (written (trace r)) -> hasFile f (world r))
  /\ List.length (written (trace r)) <= List.length (requested (trace r)).
Proof.
  assert (Q : forall r : outcome (list product) * World * list event,
            r = (Ret [], w, []) ->
            posted (trace r) = [] /\ rejected (trace r) = []
            /\ (forall f, hasFile f w -> hasFile f (world r))
            /\ (forall f, In f (written (trace r)) -> hasFile f (world r))
            /\ List.length (written (trace r))
               <= List.length (requested (trace r))).
  { intros r ->. unfold trace, world. simpl. repeat split; auto.
    intros f []. }
  destruct (storeOf w) as [stored|] eqn:Es.
  2:{ apply Q. now apply fetchProducts_corrupt. }
  destruct (listing env) as [|ok els] eqn:El; [|destruct ok].
  1, 3: apply Q; apply fetchProducts_unreachable; rewrite El; eauto.
  cbv zeta. rewrite (fetchProducts_listed extname env w els stored El Es).
  pose proof (fetchLoop_files extname env stored els 0 [] w) as I.
  destruct (fetchLoop extname env stored els 0 [] w) as [[[ps|e] w'] t'];
    unfold trace, world in *; simpl in *; tauto.
Qed.

(** The images directory and the image traffic of a cycle are those of
    its [fetchProducts]. *)
Lemma cycle_files (env : Env) (w : World) :
  imagesDir (world (cycle env w)) = imagesDir (world (fetched env w))
  /\ written (trace (cycle env w)) = written (trace (fetched env w))
  /\ requested (trace (cycle env w)) = requested (trace (fetched env w)).
Proof.
  destruct (storeOf w) as [cached|] eqn:Es.
  2:{ rewrite (cycle_corrupt extname env w Es). now repeat split. }
  destruct (fetchProducts_returns extname env w) as (cur & wf & tf & Hf & _).
  destruct (cycle_run extname env w wf cached cur tf Hf Es) as (_ & C).
  rewrite C, Hf. clear C.
  assert (T : forall l,
            written (if (0 <? List.length cached)%nat
                     then notifyTrace env 0 l else []) = []
            /\ requested (if (0 <? List.length cached)%nat
                          then notifyTrace env 0 l else []) = []).
  { intros l. destruct (0 <? List.length cached)%nat; [|now split].
    apply notifyTrace_written. }
  destruct (T (newProducts cur cached)) as (T1 & T2).
  match goal with
  | |- context [if ?b then (_, mkWorld _ _, _) else _] => destruct b
  end; unfold world, trace; simpl fst; simpl snd;
    rewrite ?written_app, ?requested_app, T1, T2; simpl;
    rewrite ?app_nil_r; now repeat split.
Qed.

(** X1. When the page is fetched, every element can be read, the cache
    file can be read and every element either has a cached identifier or
    an image the host delivers, [fetchProducts] returns one record for
    each element, in the order of the listing, with the fields the loop
    computes, and writes one image file for each element without cached
    identifier. *)
Theorem fetchProducts_complete (env : Env) (w : World)
    (raws : list rawFields) (cached : list product) :
  listing env = Response true (map Some raws) ->
  storeOf w = Some cached ->
  Forall (resolvable env cached) raws ->
  result (fetched env w) = Ret (recordsOf env cached 0 raws)
  /\ written (trace (fetched env w)) = filesOf extname env cached 0 raws
  /\ map name (recordsOf env cached 0 raws) = map rawName raws.
Proof.
  intros Hl Hs Hr.
  rewrite (fetchProducts_listed extname env w _ cached Hl Hs).
  destruct (fetchLoop_success extname env cached raws Hr 0 [] w)
    as (w' & t & E & W).
  rewrite E. unfold result, trace. simpl. repeat split; [assumption|].
  clear. generalize 0. induction raws as [|raw rest IH]; intros i;
    [reflexivity|].
  cbn [recordsOf map]. now rewrite IH, productOf_name.
Qed.

(** X2. Whatever the page, the cache file and the image host are,
    [fetchProducts] returns an array and does not throw; it leaves the
    cache file as it is, notifies nothing, posts nothing, saves nothing
    and removes no image file. *)
Theorem fetchProducts_reads_the_cache_only (env : Env) (w : World) :
  (exists cur, result (fetched env w) = Ret cur)
  /\ cacheFile (world (fetched env w)) = cacheFile w
  /\ notified (trace (fetched env w)) = []
  /\ posted (trace (fetched env w)) = []
  /\ saved (trace (fetched env w)) = []
  /\ (forall f, hasFile f w -> hasFile f (world (fetched env w))).
Proof.
  destruct (fetchProducts_inv extname env w) as (H1 & H2 & H3 & H4 & _).
  destruct (fetchProducts_files env w) as (F1 & _ & F3 & _).
  repeat split; assumption.
Qed.

(** X3. A cycle requests no image for a product whose first cached
    record has a non-empty [imageId], and every record it fetches for
    that product carries the cached [imageId]. *)
Theorem cached_imageId_is_reused (env : Env) (w : World)
    (cached : list product) (n id : string) :
  storeOf w = Some cached ->
  cachedImageId (find (fun p => name p =? n) cached) = Some id ->
  downloadsOf n (trace (cycle env w)) = 0
  /\ forall cur p, result (fetched env w) = Ret cur ->
       In p cur -> name p = n -> imageId p = Some id.
Proof.
  intros Hs Hc.
  destruct (fetchProducts_inv extname env w)
    as ((cur & Hcur) & _ & _ & _ & _ & Hz & Hres).
  split.
  - destruct (cycle_summary extname env w cached cur Hcur Hs)
      as (_ & _ & _ & D & _).
    rewrite D. now apply (Hz cached n id).
  - intros cur' p Hr Hin Hn.
    destruct (Hres cur' Hr) as [-> | (_ & Hf)]; [destruct Hin|].
    destruct (proj1 (Forall_forall _ _) (Hf cached Hs) p Hin)
      as (id' & Hid & _ & Hag).
    rewrite Hn in Hag. now rewrite Hid, (Hag id Hc).
Qed.

(** X4. A cycle requests the image of a product at most as often as the
    listing shows its name, and writes at most as many image files as it
    makes requests. *)
Theorem image_requests_are_bounded (env : Env) (w : World) (n : string) :
  downloadsOf n (trace (cycle env w))
  <= count_occ string_dec (listedNames (listing env)) n
  /\ List.length (written (trace (cycle env w)))
     <= List.length (requested (trace (cycle env w))).
Proof.
  destruct (cycle_files env w) as (_ & W & R). rewrite W, R.
  destruct (fetchProducts_files env w) as (_ & _ & _ & _ & L).
  split; [|exact L].
  destruct (fetchProducts_inv extname env w)
    as ((cur & Hcur) & _ & _ & _ & B & _).
  destruct (storeOf w) as [cached|] eqn:Es.
  - destruct (cycle_summary extname env w cached cur Hcur Es)
      as (_ & _ & _ & D & _).
    rewrite D. apply B.
  - rewrite (cycle_corrupt extname env w Es). apply B.
Qed.

(** X5. A cycle removes no image file, and every image file it writes
    is in the images directory when it ends. *)
Theorem cycle_keeps_image_files (env : Env) (w : World) (f : string) :
  (hasFile f w -> hasFile f (world (cycle env w)))
  /\ (In f (written (trace (cycle env w))) ->
      hasFile f (world (cycle env w))).
Proof.
  destruct (cycle_files env w) as (I & W & _).
  destruct (fetchProducts_files env w) as (_ & _ & F3 & F4 & _).
  unfold hasFile in *. rewrite I, W. split; [apply F3 | apply F4].
Qed.

(** X6. On a cache file that is not JSON the cycle downloads nothing,
    notifies nothing and saves nothing: [fetchProducts] catches the first
    error of [loadCache] and returns the empty array, the second
    [loadCache] throws out of [checkForNewProducts]. *)
Theorem unreadable_cache_stops_the_cycle (env : Env) (w : World) :
  storeOf w = None ->
  fetched env w = (Ret [], w, [])
  /\ cycle env w = (Throw SyntaxError, w, []).
Proof.
  intros Hs. pose proof (fetchProducts_corrupt extname env w Hs) as F.
  split; [exact F|].
  now rewrite (cycle_corrupt extname env w Hs), F.
Qed.

(** X7. An element in which a selector finds nothing empties the fetch:
    [fetchProducts] returns the empty array whatever the other elements
    are, and the cycle notifies nothing, saves nothing and leaves the
    cache file as it is. *)
Theorem unreadable_element_empties_the_fetch (env : Env) (w : World)
    (els : list element) :
  listing env = Response true els ->
  In None els ->
  result (fetched env w) = Ret []
  /\ notified (trace (cycle env w)) = []
  /\ saved (trace (cycle env w)) = []
  /\ cacheFile (world (cycle env w)) = cacheFile w.
Proof.
  intros Hl Hin.
  destruct (storeOf w) as [cached|] eqn:Es.
  - assert (R : result (fetched env w) = Ret []).
    { rewrite (fetchProducts_listed extname env w els cached Hl Es).
      destruct (fetchLoop_throws_unreadable extname env cached els Hin 0 [] w)
        as (e & He).
      destruct (fetchLoop extname env cached els 0 [] w) as [[r w'] t].
      unfold result in He. simpl in He. now subst r. }
    split; [exact R|].
    destruct (cycle_summary extname env w cached [] R Es)
      as (_ & N & V & _ & K).
    unfold freshOf, newProducts in N. simpl in N, V.
    assert (N' : notified (trace (cycle env w)) = [])
      by (rewrite N; now destruct (0 <? List.length cached)%nat).
    auto.
  - rewrite (cycle_corrupt extname env w Es).
    rewrite (fetchProducts_corrupt extname env w Es).
    now repeat split.
Qed.

End FetchTheorems.

(** ** More on [checkForNewProducts] *)

Section CycleTheorems.

Variable extname : string -> string.

Local Abbreviation cycle := (checkForNewProducts extname).
Local Abbreviation fetched := (fetchProducts extname).

(** What the loop returns when it does not throw. *)
Lemma fetchLoop_result (env : Env) (cached : list product)
    (elements : list element) :
  forall (i : nat) (acc ps : list product) (w : World),
    result (fetchLoop extname env cached elements i acc w) = Ret ps ->
    exists raws, elements = map Some raws
                 /\ ps = acc ++ recordsOf env cached i raws.
Proof.
  induction elements as [|el rest IH]; intros i acc ps w H.
  - exists []. inversion H. now rewrite app_nil_r.
  - destruct el as [raw|]; [|discriminate H].
    rewrite fetchLoop_some in H. unfold bind in H.
    pose proof (resolveImage_run extname env cached i (rawName raw)
                  (normalizeImageUrl ("https:" ++ rawMainImage raw)%string) w)
      as R.
    assert (K : forall id w1,
              id = idFor env cached i raw ->
              result (fetchLoop extname env cached rest (S i)
                        (acc ++ [productOf raw id]) w1) = Ret ps ->
              exists raws, Some raw :: rest = map Some raws
                           /\ ps = acc ++ recordsOf env cached i raws).
    { intros id w1 -> Hr. destruct (IH _ _ _ _ Hr) as (raws & -> & ->).
      exists (raw :: raws). split; [reflexivity|].
      cbn [recordsOf]. now rewrite <- app_assoc. }
    unfold idFor in K.
    destruct (cachedImageId (find (fun p => name p =? rawName raw) cached))
      as [id|].
    + rewrite R in H. apply (K id w eq_refl).
      destruct (fetchLoop extname env cached rest (S i)
                  (acc ++ [productOf raw id]) w) as [[r' w'] t'].
      exact H.
    + destruct (imageHost env _) as [body|].
      * rewrite R in H.
        match type of H with
        | context [fetchLoop extname env cached rest (S i) ?a ?w1] =>
            apply (K _ w1 eq_refl);
            destruct (fetchLoop extname env cached rest (S i) a w1)
              as [[r' w'] t']
        end.
        exact H.
      * rewrite R in H. discriminate H.
Qed.

Lemma recordsOf_not_stamped (env : Env) (cached : list product)
    (raws : list rawFields) :
  forall i, Forall (fun p => cachedTime p = None)
                   (recordsOf env cached i raws).
Proof.
  induction raws as [|raw rest IH]; intros i; constructor;
    [reflexivity | apply IH].
Qed.

Lemma freshOf_new (env : Env) (cur cached : list product) (p : product) :
  In p (freshOf env cur cached) -> isNew cached p = true.
Proof.
  unfold freshOf. destruct (0 <? List.length cached)%nat; intros H.
  - destruct (stampFrom_In env _ p 0 H) as (p0 & time & Hin & ->).
    apply filter_In in Hin. apply Hin.
  - apply filter_In in H. apply H.
Qed.

Lemma notifyTrace_posted (env : Env) (products : list product) :
  forall i,
    posted (notifyTrace env i products)
    = match slack (cfg env) with
      | Some s =>
          if botDisabled (cfg env) then []
          else map (messageOf s) (stampFrom env i products)
      | None => []
      end
    /\ rejected (notifyTrace env i products)
       = match slack (cfg env) with
         | Some _ => []
         | None => map (fun _ => TypeError) (stampFrom env i products)
         end.
Proof.
  induction products as [|p rest IH]; intros i.
  - simpl. destruct (slack (cfg env)); [|now split].
    now destruct (botDisabled (cfg env)).
  - destruct (IH (S i)) as (IH1 & IH2).
    cbn [notifyTrace stampFrom posted rejected].
    rewrite posted_app, rejected_app, IH1, IH2.
    unfold slackEvents, botDisabled.
    destruct (slack (cfg env)) as [s|]; [|now split].
    destruct (enableBot s) as [[|]|]; now split.
Qed.

(** A cycle in full, whatever the cache file holds. *)
Lemma cycle_cases (env : Env) (w : World) :
  (storeOf w = None /\ cycle env w = (Throw SyntaxError, w, []))
  \/ exists cached cur wf tf,
       storeOf w = Some cached
       /\ fetched env w = (Ret cur, wf, tf)
       /\ world (cycle env w)
          = (if (0 <? List.length (freshOf env cur cached))%nat
             then mkWorld (Holds (cached ++ freshOf env cur cached))
                          (imagesDir wf)
             else wf)
       /\ trace (cycle env w)
          = tf
            ++ (if (0 <? List.length cached)%nat
                then notifyTrace env 0 (newProducts cur cached) else [])
            ++ (if (0 <? List.length (freshOf env cur cached))%nat
                then [ESave (cached ++ freshOf env cur cached)] else []).
Proof.
  destruct (storeOf w) as [cached|] eqn:Es.
  - right.
    destruct (fetchProducts_returns extname env w) as (cur & wf & tf & Hf & _).
    destruct (cycle_run extname env w wf cached cur tf Hf Es) as (_ & C).
    fold (freshOf env cur cached) in C.
    exists cached, cur, wf, tf. repeat split; try assumption;
      rewrite C; destruct (0 <? List.length (freshOf env cur cached))%nat;
      unfold world, trace; simpl; now rewrite ?app_nil_r.
  - left. split; [reflexivity|].
    now rewrite (cycle_corrupt extname env w Es),
                (fetchProducts_corrupt extname env w Es).
Qed.

Lemma fetchProducts_shape (env : Env) (w : World)
    (cached cur : list product) :
  storeOf w = Some cached ->
  result (fetched env w) = Ret cur ->
  cur = []
  \/ exists raws, listing env = Response true (map Some raws)
                  /\ cur = recordsOf env cached 0 raws
                  /\ List.length cur = List.length raws.
Proof.
  intros Hs Hr.
  destruct (listing env) as [|[|] els] eqn:El.
  1, 3: rewrite fetchProducts_unreachable in Hr by (rewrite El; eauto);
        inversion Hr; now left.
  rewrite (fetchProducts_listed extname env w els cached El Hs) in Hr.
  pose proof (fetchLoop_result env cached els 0 [] cur w) as L.
  destruct (fetchLoop extname env cached els 0 [] w) as [[[ps|e] w'] t];
    unfold result in *; simpl in *.
  - destruct (L Hr) as (raws & -> & ->). right. exists raws.
    repeat split. clear. generalize 0.
    induction raws as [|raw rest IH]; intros i; [reflexivity|].
    cbn [recordsOf List.length]. now rewrite IH.
  - inversion Hr. now left.
Qed.

(** X8. [fetchProducts] returns the whole listing or nothing: its array
    is empty, or the page was fetched, every element could be read, and
    the array has the record of every element, in order. *)
Theorem fetchProducts_all_or_nothing (env : Env) (w : World)
    (cached cur : list product) :
  storeOf w = Some cached ->
  result (fetched env w) = Ret cur ->
  cur = []
  \/ exists raws, listing env = Response true (map Some raws)
                  /\ cur = recordsOf env cached 0 raws
                  /\ List.length cur = List.length raws.
Proof.
  intros Hs Hr. exact (fetchProducts_shape env w cached cur Hs Hr).
Qed.

(** X9. A cycle only appends to the cache: afterwards the file holds the
    records it held, in place and unchanged, followed by records whose
    names it did not hold; [saveCache] is called once when there are
    such records and not at all when there are none. *)
Theorem store_is_append_only (env : Env) (w : World)
    (cached : list product) :
  storeOf w = Some cached ->
  exists fresh,
    storeOf (world (cycle env w)) = Some (cached ++ fresh)
    /\ (forall p k, In p fresh -> In k cached -> name k <> name p)
    /\ saved (trace (cycle env w))
       = match fresh with [] => [] | _ :: _ => [cached ++ fresh] end.
Proof.
  intros Hs.
  destruct (fetchProducts_inv extname env w) as ((cur & Hcur) & _).
  destruct (cycle_summary extname env w cached cur Hcur Hs)
    as (S & _ & V & _).
  exists (freshOf env cur cached). repeat split; [assumption| |].
  - intros p k Hp Hk. apply freshOf_new in Hp.
    now apply (proj1 (isNew_spec cached p) Hp k).
  - rewrite V, <- (freshOf_length env).
    now destruct (freshOf env cur cached).
Qed.

(** X10. The records a first cycle saves carry no [cachedTime]; the
    records a later cycle appends carry the time of their turn in the
    [forEach]. *)
Theorem cachedTime_is_set_when_notified (env : Env) (w : World)
    (cached : list product) :
  storeOf w = Some cached ->
  exists fresh,
    storeOf (world (cycle env w)) = Some (cached ++ fresh)
    /\ (cached = [] -> Forall (fun p => cachedTime p = None) fresh)
    /\ (cached <> [] ->
        forall i p, nth_error fresh i = Some p ->
                    cachedTime p = Some (clock env i)).
Proof.
  intros Hs.
  destruct (fetchProducts_inv extname env w) as ((cur & Hcur) & _).
  destruct (cycle_summary extname env w cached cur Hcur Hs) as (S & _).
  exists (freshOf env cur cached). split; [assumption|]. split.
  - intros ->. unfold freshOf. simpl. rewrite newProducts_empty_cache.
    destruct (fetchProducts_shape env w [] cur Hs Hcur)
      as [-> | (raws & _ & -> & _)]; [constructor|].
    apply recordsOf_not_stamped.
  - intros Hne. unfold freshOf.
    destruct cached as [|c cached']; [congruence|]. simpl.
    generalize (newProducts cur (c :: cached')). intros l.
    assert (G : forall k i p, nth_error (stampFrom env k l) i = Some p ->
                              cachedTime p = Some (clock env (k + i))).
    { induction l as [|q l IH]; intros k i p H.
      - destruct i; discriminate H.
      - destruct i as [|i]; simpl in H.
        + inversion H. now rewrite Nat.add_0_r.
        + rewrite <- Nat.add_succ_comm. now apply IH. }
    intros i p H. apply (G 0 i p H).
Qed.

(** X11. The messages a cycle posts to Slack are read off its
    notifications: with a [slack] section whose flag is not [false], one
    message for each record notified, in order, carrying its name, price,
    page link and image url; with the flag [false], none; with no [slack]
    section, none, and one rejected promise for each record notified. *)
Theorem posts_follow_notifications (env : Env) (w : World) :
  posted (trace (cycle env w))
  = match slack (cfg env) with
    | Some s =>
        if botDisabled (cfg env) then []
        else map (messageOf s) (notified (trace (cycle env w)))
    | None => []
    end
  /\ rejected (trace (cycle env w))
     = match slack (cfg env) with
       | Some _ => []
       | None => map (fun _ => TypeError) (notified (trace (cycle env w)))
       end.
Proof.
  destruct (cycle_cases env w)
    as [(_ & C) | (cached & cur & wf & tf & Hs & Hf & _ & T)].
  - rewrite C. unfold trace. simpl.
    destruct (slack (cfg env)); [|now split].
    now destruct (botDisabled (cfg env)).
  - destruct (fetchProducts_inv extname env w) as (_ & _ & Hn & _).
    destruct (fetchProducts_files extname env w) as (Hp & Hj & _).
    rewrite Hf in Hn, Hp, Hj. unfold trace in Hn, Hp, Hj.
    simpl in Hn, Hp, Hj.
    rewrite T, !posted_app, !rejected_app, !notified_app, Hn, Hp, Hj.
    set (sv := if (0 <? List.length (freshOf env cur cached))%nat
               then [ESave (cached ++ freshOf env cur cached)] else []).
    assert (Sv : posted sv = [] /\ rejected sv = [] /\ notified sv = []).
    { subst sv. now destruct (0 <? List.length (freshOf env cur cached))%nat. }
    destruct Sv as (S1 & S2 & S3). rewrite S1, S2, S3, !app_nil_r. simpl.
    destruct (0 <? List.length cached)%nat.
    + destruct (notifyTrace_posted env (newProducts cur cached) 0)
        as (P & R).
      now rewrite P, R, notifyTrace_notified.
    + simpl. destruct (slack (cfg env)); [|now split].
      now destruct (botDisabled (cfg env)).
Qed.

Lemma stampFrom_withConfig (c : config) (env : Env) (l : list product) :
  forall i, stampFrom (withConfig c env) i l = stampFrom env i l.
Proof.
  induction l as [|p l IH]; intros i; [reflexivity|].
  simpl. now rewrite IH.
Qed.

Lemma fetchLoop_withConfig (c : config) (env : Env) (cached : list product)
    (elements : list element) :
  forall i acc w,
    fetchLoop extname (withConfig c env) cached elements i acc w
    = fetchLoop extname env cached elements i acc w.
Proof.
  induction elements as [|el rest IH]; intros i acc w; [reflexivity|].
  destruct el as [raw|]; [|reflexivity].
  rewrite !fetchLoop_some. unfold bind.
  change (resolveImage extname (withConfig c env) cached i (rawName raw)
            (normalizeImageUrl ("https:" ++ rawMainImage raw)%string) w)
    with (resolveImage extname env cached i (rawName raw)
            (normalizeImageUrl ("https:" ++ rawMainImage raw)%string) w).
  destruct (resolveImage extname env cached i (rawName raw) _ w)
    as [[[id|e] w1] t1]; [|reflexivity].
  now rewrite IH.
Qed.

Lemma fetchProducts_withConfig (c : config) (env : Env) (w : World) :
  fetched (withConfig c env) w = fetched env w.
Proof.
  unfold fetchProducts, tryCatch.
  change (listing (withConfig c env)) with (listing env).
  destruct (listing env) as [|[|] els]; try reflexivity.
  simpl. unfold bind. destruct (loadCache w) as [[[cached|e] w1] t1];
    [|reflexivity].
  now rewrite fetchLoop_withConfig.
Qed.

(** X12. [config.json] decides what is sent to Slack and nothing else:
    with another configuration the cycle ends the same way, leaves the
    same files, and notifies and saves the same records. *)
Theorem configuration_only_affects_slack (c : config) (env : Env)
    (w : World) :
  result (cycle (withConfig c env) w) = result (cycle env w)
  /\ world (cycle (withConfig c env) w) = world (cycle env w)
  /\ notified (trace (cycle (withConfig c env) w))
     = notified (trace (cycle env w))
  /\ saved (trace (cycle (withConfig c env) w))
     = saved (trace (cycle env w)).
Proof.
  destruct (storeOf w) as [cached|] eqn:Es.
  2:{ rewrite !(cycle_corrupt extname _ w Es), fetchProducts_withConfig.
      now repeat split. }
  destruct (fetchProducts_returns extname env w) as (cur & wf & tf & Hf & _).
  assert (Hf' : fetched (withConfig c env) w = (Ret cur, wf, tf))
    by now rewrite fetchProducts_withConfig.
  destruct (cycle_run extname env w wf cached cur tf Hf Es) as (_ & C).
  destruct (cycle_run extname _ w wf cached cur tf Hf' Es) as (_ & C').
  rewrite stampFrom_withConfig in C'.
  rewrite C, C'.
  destruct (fetchProducts_inv extname env w) as (_ & _ & Hn & Hv & _).
  rewrite Hf in Hn, Hv. unfold trace in Hn, Hv. simpl in Hn, Hv.
  destruct (0 <? List.length cached)%nat;
    match goal with
    | |- context [if ?b then (_, mkWorld _ _, _) else _] => destruct b
    end; unfold result, world, trace; simpl;
    rewrite ?notified_app, ?saved_app, ?notifyTrace_notified,
            ?notifyTrace_saved, ?stampFrom_withConfig;
    now repeat split.
Qed.

(** Over any number of cycles the cache keeps what it holds, and no
    record of a name it holds is notified. *)
Lemma cycles_keep_known (envs : list Env) :
  forall (w : World) (cached : list product),
    storeOf w = Some cached ->
    (exists more,
       storeOf (fst (cycles extname envs w)) = Some (cached ++ more))
    /\ forall p k, In p (notified (snd (cycles extname envs w))) ->
                   In k cached -> name k <> name p.
Proof.
  induction envs as [|env rest IH]; intros w cached Hs.
  - simpl. split; [exists []; now rewrite app_nil_r | intros p k []].
  - cbn [cycles].
    destruct (fetchProducts_inv extname env w) as ((cur & Hcur) & _).
    destruct (cycle_summary extname env w cached cur Hcur Hs)
      as (S & N & _).
    destruct (IH _ _ S) as ((more & Hm) & Hk).
    destruct (cycles extname rest (world (cycle env w))) as [w' t'].
    simpl in *. split.
    + exists (freshOf env cur cached ++ more). now rewrite app_assoc.
    + intros p k Hp Hin. rewrite notified_app in Hp.
      apply in_app_or in Hp. destruct Hp as [Hp|Hp].
      * rewrite N in Hp.
        destruct (0 <? List.length cached)%nat; [|destruct Hp].
        apply freshOf_new in Hp.
        now apply (proj1 (isNew_spec cached p) Hp k).
      * apply (Hk p k Hp). apply in_or_app. now left.
Qed.

(** X13. However many cycles follow, a record in the cache stays where
    it is, unchanged, and no record of its name is notified. *)
Theorem known_products_are_never_notified (envs : list Env) (w : World)
    (cached : list product) :
  storeOf w = Some cached ->
  (exists more,
     storeOf (fst (cycles extname envs w)) = Some (cached ++ more))
  /\ forall p k, In p (notified (snd (cycles extname envs w))) ->
                 In k cached -> name k <> name p.
Proof. intros Hs. exact (cycles_keep_known envs w cached Hs). Qed.

(** X14. A product that [fetchProducts] returned in a cycle is in the
    cache after that cycle, and none of the cycles that follow notifies
    a record of its name. *)
Theorem fetched_products_are_notified_at_most_once (env : Env)
    (envs : list Env) (w : World) (cached cur : list product)
    (p : product) :
  storeOf w = Some cached ->
  result (fetched env w) = Ret cur ->
  In p cur ->
  (exists store k, storeOf (world (cycle env w)) = Some store
                   /\ In k store /\ name k = name p)
  /\ forall q, In q (notified (snd (cycles extname envs
                                      (world (cycle env w))))) ->
               name q <> name p.
Proof.
  intros Hs Hr Hin.
  destruct (cycle_summary extname env w cached cur Hr Hs) as (S & _).
  assert (K : exists k, In k (cached ++ freshOf env cur cached)
                        /\ name k = name p).
  { destruct (isNew cached p) eqn:E.
    - assert (Hn : In (name p) (map name (freshOf env cur cached))).
      { rewrite freshOf_names. apply in_map. apply filter_In. now split. }
      apply in_map_iff in Hn. destruct Hn as (k & Hk & Hi).
      exists k. split; [apply in_or_app; now right | assumption].
    - unfold isNew in E. apply negb_false_iff in E.
      apply existsb_exists in E. destruct E as (k & Hk & Heq).
      apply String.eqb_eq in Heq.
      exists k. split; [apply in_or_app; now left | assumption]. }
  destruct K as (k & Hk & Hkn). split.
  - now exists (cached ++ freshOf env cur cached), k.
  - intros q Hq.
    destruct (cycles_keep_known envs _ _ S) as (_ & H).
    rewrite <- Hkn. intros E. now apply (H q k Hq Hk).
Qed.

Lemma filter_none {A} (f : A -> bool) (l : list A) :
  (forall x, In x l -> f x = false) -> filter f l = [].
Proof.
  induction l as [|x l IH]; intros H; [reflexivity|].
  simpl. rewrite (H x (or_introl eq_refl)). apply IH.
  intros y Hy. apply H. now right.
Qed.

(** X21. A cycle whose listing shows only products that the cycle
    before it fetched notifies nothing and saves nothing, and leaves the
    cache file as that cycle left it. *)
Theorem repeated_listing_is_a_no_op (env env2 : Env) (w : World)
    (cached cur : list product) :
  storeOf w = Some cached ->
  result (fetched env w) = Ret cur ->
  (forall n, In n (listedNames (listing env2)) -> In n (map name cur)) ->
  notified (trace (cycle env2 (world (cycle env w)))) = []
  /\ saved (trace (cycle env2 (world (cycle env w)))) = []
  /\ cacheFile (world (cycle env2 (world (cycle env w))))
     = cacheFile (world (cycle env w)).
Proof.
  intros Hs Hr Hl.
  destruct (cycle_summary extname env w cached cur Hr Hs) as (S & _).
  set (w1 := world (cycle env w)) in *.
  set (store1 := cached ++ freshOf env cur cached) in *.
  destruct (fetchProducts_inv extname env2 w1)
    as ((cur2 & Hr2) & _ & _ & _ & _ & _ & Hshape).
  assert (Known : forall n, In n (map name cur) -> In n (map name store1)).
  { intros n Hn. apply in_map_iff in Hn. destruct Hn as (p & <- & Hp).
    subst store1. rewrite map_app. apply in_or_app.
    destruct (isNew cached p) eqn:E.
    - right. rewrite freshOf_names. apply in_map. apply filter_In. now split.
    - left. unfold isNew in E. apply negb_false_iff in E.
      apply existsb_exists in E. destruct E as (k & Hk & Heq).
      apply String.eqb_eq in Heq. rewrite <- Heq. now apply in_map. }
  assert (N : newProducts cur2 store1 = []).
  { apply filter_none. intros p Hp.
    destruct (isNew store1 p) eqn:E; [|reflexivity]. exfalso.
    destruct (Hshape cur2 Hr2) as [-> | (Hn & _)]; [destruct Hp|].
    assert (Hin : In (name p) (map name store1)).
    { apply Known, Hl. rewrite <- Hn. now apply in_map. }
    apply in_map_iff in Hin. destruct Hin as (k & Hk & Hks).
    now apply (proj1 (isNew_spec store1 p) E k). }
  destruct (cycle_summary extname env2 w1 store1 cur2 Hr2 S)
    as (_ & Nt & V & _ & K).
  unfold freshOf in Nt. rewrite N in Nt, V. simpl in Nt, V.
  assert (Nt' : notified (trace (cycle env2 w1)) = [])
    by (rewrite Nt; now destruct (0 <? List.length store1)%nat).
  auto.
Qed.

End CycleTheorems.

(** ** The image url and the image identifier *)

Section Strings.

Lemma index_cons (pat : string) (b : ascii) (t : string) :
  index 0 pat (String b t)
  = if prefix pat (String b t) then Some 0
    else option_map S (index 0 pat t).
Proof.
  simpl. destruct (prefix pat (String b t)); [reflexivity|].
  now destruct (index 0 pat t).
Qed.

Lemma prefix_nil (s : string) : prefix EmptyString s = true.
Proof. now destruct s. Qed.

Lemma prefix_cons (a b : ascii) (p s : string) :
  prefix (String a p) (String b s)
  = if Ascii.eqb a b then prefix p s else false.
Proof.
  simpl. destruct (ascii_dec a b) as [E|E].
  - subst. now rewrite Ascii.eqb_refl.
  - apply Ascii.eqb_neq in E. now rewrite E.
Qed.

Lemma prefix_length (p s : string) :
  prefix p s = true -> String.length p <= String.length s.
Proof.
  revert s. induction p as [|a p IH]; intros s H; [simpl; lia|].
  destruct s as [|b s]; [discriminate H|].
  rewrite prefix_cons in H. destruct (Ascii.eqb a b); [|discriminate H].
  simpl. apply IH in H. lia.
Qed.

(** A pattern without question mark does not reach across one. *)
Lemma prefix_before_query (p u q : string) :
  noQuery p = true -> prefix p (u ++ String "?" q) = prefix p u.
Proof.
  revert u. induction p as [|a p IH]; intros u H.
  - now rewrite !prefix_nil.
  - simpl in H. apply andb_prop in H. destruct H as (Ha & Hp).
    destruct u as [|b u].
    + change (EmptyString ++ String "?" q)%string with (String "?" q).
      rewrite prefix_cons. apply negb_true_iff in Ha. now rewrite Ha.
    + change (String b u ++ String "?" q)%string
        with (String b (u ++ String "?" q)).
      rewrite !prefix_cons. destruct (Ascii.eqb a b); [now apply IH | easy].
Qed.

Lemma substring_full (s : string) : substring 0 (String.length s) s = s.
Proof. induction s as [|c s IH]; [reflexivity|]. simpl. now rewrite IH. Qed.

Lemma substring_tail_app (n : nat) :
  forall u v, n <= String.length u ->
    substring n (String.length (u ++ v) - n) (u ++ v)
    = (substring n (String.length u - n) u ++ v)%string.
Proof.
  induction n as [|n IH]; intros u v H.
  - now rewrite !Nat.sub_0_r, !substring_full.
  - destruct u as [|c u]; [simpl in H; lia|].
    simpl in H. apply (IH u v). lia.
Qed.

Lemma noQuery_app (s t : string) :
  noQuery (s ++ t) = noQuery s && noQuery t.
Proof.
  induction s as [|c s IH]; [reflexivity|].
  simpl. now rewrite IH, andb_assoc.
Qed.

Lemma noQuery_substring (s : string) :
  forall n m, noQuery s = true -> noQuery (substring n m s) = true.
Proof.
  induction s as [|c s IH]; intros n m H.
  - now destruct n, m.
  - simpl in H. apply andb_prop in H. destruct H as (Hc & Hs).
    destruct n as [|n]; [destruct m as [|m]|]; simpl; auto.
    now rewrite Hc, IH.
Qed.

Lemma beforeQuery_cons (b : ascii) (t : string) :
  beforeQuery (String b t)
  = if Ascii.eqb b "?" then EmptyString else String b (beforeQuery t).
Proof.
  unfold beforeQuery. rewrite index_cons, prefix_cons, prefix_nil.
  rewrite Ascii.eqb_sym. destruct (Ascii.eqb b "?"); [reflexivity|].
  destruct (index 0 "?" t); reflexivity.
Qed.

Lemma beforeQuery_noQuery (s : string) : noQuery (beforeQuery s) = true.
Proof.
  induction s as [|b s IH]; [reflexivity|].
  rewrite beforeQuery_cons. destruct (Ascii.eqb b "?") eqn:E; [reflexivity|].
  simpl. now rewrite E, IH.
Qed.

Lemma beforeQuery_cut (u q : string) :
  noQuery u = true -> beforeQuery (u ++ String "?" q) = u.
Proof.
  induction u as [|b u IH]; intros H.
  - change (EmptyString ++ String "?" q)%string with (String "?" q).
    now rewrite beforeQuery_cons.
  - simpl in H. apply andb_prop in H. destruct H as (Hb & Hu).
    change (String b u ++ String "?" q)%string
      with (String b (u ++ String "?" q)).
    rewrite beforeQuery_cons. apply negb_true_iff in Hb.
    now rewrite Hb, IH.
Qed.

Lemma beforeQuery_id (u : string) : noQuery u = true -> beforeQuery u = u.
Proof.
  induction u as [|b u IH]; intros H; [reflexivity|].
  simpl in H. apply andb_prop in H. destruct H as (Hb & Hu).
  rewrite beforeQuery_cons. apply negb_true_iff in Hb. now rewrite Hb, IH.
Qed.

Lemma replaceFirst_cons (pat rep : string) (b : ascii) (t : string) :
  replaceFirst pat rep (String b t)
  = if prefix pat (String b t)
    then (rep ++ substring (String.length pat)
                           (String.length (String b t) - String.length pat)
                           (String b t))%string
    else String b (replaceFirst pat rep t).
Proof.
  unfold replaceFirst. rewrite index_cons.
  destruct (prefix pat (String b t)); [reflexivity|].
  destruct (index 0 pat t) as [n|]; reflexivity.
Qed.

Lemma replaceFirst_nil (a : ascii) (pat rep : string) :
  replaceFirst (String a pat) rep EmptyString = EmptyString.
Proof. reflexivity. Qed.

Lemma append_assoc (s t u : string) :
  ((s ++ t) ++ u = s ++ (t ++ u))%string.
Proof. induction s as [|c s IH]; [reflexivity|]. simpl. now rewrite IH. Qed.

(** Replacing in front of a question mark leaves the question mark, and
    what stood before it is replaced as if it stood alone. *)
Lemma replaceFirst_before_query (a : ascii) (pat rep u q : string) :
  noQuery (String a pat) = true ->
  exists q',
    replaceFirst (String a pat) rep (u ++ String "?" q)
    = (replaceFirst (String a pat) rep u ++ String "?" q')%string.
Proof.
  intros Hp. induction u as [|b u (q' & IH)].
  - exists (replaceFirst (String a pat) rep q).
    change (EmptyString ++ String "?" q)%string with (String "?" q).
    rewrite replaceFirst_cons, replaceFirst_nil.
    rewrite prefix_cons. simpl in Hp. apply andb_prop in Hp.
    destruct Hp as (Ha & _). apply negb_true_iff in Ha. now rewrite Ha.
  - change (String b u ++ String "?" q)%string
      with (String b (u ++ String "?" q)).
    rewrite !replaceFirst_cons.
    change (String b (u ++ String "?" q))
      with (String b u ++ String "?" q)%string.
    rewrite (prefix_before_query _ (String b u) q Hp).
    destruct (prefix (String a pat) (String b u)) eqn:E.
    + exists q. rewrite substring_tail_app by now apply prefix_length.
      now rewrite append_assoc.
    + exists q'. change (String b u ++ String "?" q)%string
        with (String b (u ++ String "?" q)).
      now rewrite IH.
Qed.

Lemma replaceFirst_noQuery (pat rep u : string) :
  noQuery rep = true -> noQuery u = true ->
  noQuery (replaceFirst pat rep u) = true.
Proof.
  intros Hr Hu. unfold replaceFirst.
  destruct (index 0 pat u) as [n|]; [|assumption].
  now rewrite !noQuery_app, !noQuery_substring, Hr.
Qed.

(** X15. The normalised image url has no question mark, and does not
    depend on the query: a url without question mark, followed by a
    question mark and anything, is normalised like the url alone. *)
Theorem normalizeImageUrl_drops_the_query :
  (forall s, noQuery (normalizeImageUrl s) = true)
  /\ (forall u q, noQuery u = true ->
        normalizeImageUrl (u ++ String "?" q) = normalizeImageUrl u).
Proof.
  split.
  - intros s. unfold normalizeImageUrl. apply beforeQuery_noQuery.
  - intros u q Hu. unfold normalizeImageUrl.
    destruct (replaceFirst_before_query "r" "espimgsize" "145x" u q eq_refl)
      as (q' & E).
    change (String "r" "espimgsize") with "respimgsize" in E.
    rewrite E.
    assert (N : noQuery (replaceFirst "respimgsize" "145x" u) = true)
      by now apply replaceFirst_noQuery.
    now rewrite (beforeQuery_cut _ q' N), (beforeQuery_id _ N).
Qed.

Lemma hexValue_hexDigit (d : N) :
  (d < 16)%N -> hexValue (hexDigit d) = Some d.
Proof.
  intros H.
  assert (C : (d = 0 \/ d = 1 \/ d = 2 \/ d = 3 \/ d = 4 \/ d = 5 \/ d = 6
               \/ d = 7 \/ d = 8 \/ d = 9 \/ d = 10 \/ d = 11 \/ d = 12
               \/ d = 13 \/ d = 14 \/ d = 15)%N) by lia.
  repeat (destruct C as [-> | C]; [vm_compute; reflexivity|]).
  subst. vm_compute. reflexivity.
Qed.

Lemma parseHex_hexDigits (k : nat) :
  forall (n : N) (acc : string) (a : N),
    parseHex (hexDigits k n acc) a
    = parseHex acc (a * 16 ^ N.of_nat k + n mod 16 ^ N.of_nat k)%N.
Proof.
  induction k as [|k IH]; intros n acc a.
  - simpl. f_equal. rewrite N.mod_1_r. lia.
  - cbn [hexDigits]. rewrite IH. cbn [parseHex].
    rewrite hexValue_hexDigit by (apply N.mod_lt; lia).
    f_equal. rewrite Nat2N.inj_succ, N.pow_succ_r'.
    rewrite (N.Div0.mod_mul_r n 16). lia.
Qed.

(** X16. A fresh image identifier is 32 characters long and is the
    hexadecimal writing of its sixteen random bytes: reading it back
    gives their value, so different bytes give different identifiers. *)
Theorem randomHex16_round_trip (r : N) :
  String.length (randomHex16 r) = 32
  /\ parseHex (randomHex16 r) 0 = Some (r mod 2 ^ 128)%N
  /\ forall r', randomHex16 r = randomHex16 r' ->
                (r mod 2 ^ 128 = r' mod 2 ^ 128)%N.
Proof.
  assert (P : forall x, parseHex (randomHex16 x) 0 = Some (x mod 2 ^ 128)%N).
  { intros x. unfold randomHex16. rewrite parseHex_hexDigits.
    cbn [parseHex]. f_equal.
    replace (16 ^ N.of_nat 32)%N with (2 ^ 128)%N by (vm_compute; reflexivity).
    now rewrite N.Div0.mod_mod, N.mul_0_l, N.add_0_l. }
  split; [apply randomHex16_length|]. split; [apply P|].
  intros r' E. pose proof (P r) as H. rewrite E, P in H. now inversion H.
Qed.

End Strings.

(** ** Start-up *)

Section Startup.

Variable extname : string -> string.

Local Abbreviation cycle := (checkForNewProducts extname).
Local Abbreviation fetched := (fetchProducts extname).

Lemma cleanImages_run (w : World) :
  cleanImages w
  = match storeOf w with
    | None => (Throw SyntaxError, w, [])
    | Some [] => (Ret tt, mkWorld (cacheFile w) [], [])
    | Some (_ :: _) => (Ret tt, w, [])
    end.
Proof.
  unfold cleanImages, bind, loadCache, storeOf.
  destruct (cacheFile w) as [|[|c l]|] eqn:E; simpl; rewrite ?E; reflexivity.
Qed.

Lemma hasFile_writeFile_inv (f g : string) (body : list byte) (w : World) :
  hasFile f (mkWorld (cacheFile w) (writeFile g body (imagesDir w))) ->
  f = g \/ hasFile f w.
Proof.
  unfold hasFile, writeFile. simpl. intros [E|H]; [now left|]. right.
  apply in_map_iff in H. destruct H as (e & He & Hin).
  apply filter_In in Hin. apply in_map_iff. exists e. tauto.
Qed.

(** The files in the images directory after the loop were there before
    or were written by it. *)
Lemma fetchLoop_files_exact (env : Env) (cached : list product)
    (elements : list element) :
  forall (i : nat) (acc : list product) (w : World) (f : string),
    hasFile f (world (fetchLoop extname env cached elements i acc w)) ->
    hasFile f w
    \/ In f (written (trace (fetchLoop extname env cached elements i acc w))).
Proof.
  induction elements as [|el rest IH]; intros i acc w f H.
  - now left.
  - destruct el as [raw|]; [|now left].
    rewrite fetchLoop_some in *.
    remember (normalizeImageUrl ("https:" ++ rawMainImage raw)%string)
      as url eqn:Eurl.
    pose proof (resolveImage_run extname env cached i (rawName raw) url w) as R.
    unfold bind in *.
    destruct (cachedImageId (find (fun p => name p =? rawName raw) cached))
      as [id|].
    + rewrite R in *.
      specialize (IH (S i) (acc ++ [productOf raw id]) w f).
      destruct (fetchLoop extname env cached rest (S i)
                  (acc ++ [productOf raw id]) w) as [[r' w'] t'].
      unfold world, trace in *. simpl in *. auto.
    + destruct (imageHost env url) as [body|].
      * rewrite R in *.
        remember (randomHex16 (entropy env i)) as id eqn:Eid.
        match type of H with
        | context [fetchLoop extname env cached rest (S i) ?a ?w1] =>
            specialize (IH (S i) a w1 f);
            destruct (fetchLoop extname env cached rest (S i) a w1)
              as [[r' w'] t']
        end.
        unfold world, trace in *. cbn [fst snd written app] in *.
        destruct (IH H) as [Hf|Hf]; [|right; now right].
        apply hasFile_writeFile_inv in Hf.
        destruct Hf as [->|Hf]; [right; now left | now left].
      * rewrite R in H. now left.
Qed.

Lemma fetchProducts_files_exact (env : Env) (w : World) (f : string) :
  hasFile f (world (fetched env w)) ->
  hasFile f w \/ In f (written (trace (fetched env w))).
Proof.
  destruct (storeOf w) as [stored|] eqn:Es.
  2:{ rewrite (fetchProducts_corrupt extname env w Es). now left. }
  destruct (listing env) as [|ok els] eqn:El; [|destruct ok].
  1, 3: rewrite fetchProducts_unreachable by (rewrite El; eauto); now left.
  rewrite (fetchProducts_listed extname env w els stored El Es).
  pose proof (fetchLoop_files_exact env stored els 0 [] w f) as I.
  destruct (fetchLoop extname env stored els 0 [] w) as [[[ps|e] w'] t'];
    exact I.
Qed.

(** When the loop does not throw, every element was resolvable. *)
Lemma fetchLoop_resolvable (env : Env) (cached : list product)
    (raws : list rawFields) (i : nat) (acc ps : list product) (w : World) :
  result (fetchLoop extname env cached (map Some raws) i acc w) = Ret ps ->
  Forall (resolvable env cached) raws.
Proof.
  intros H. apply Forall_forall. intros raw Hin. unfold resolvable, urlOf.
  destruct (cachedImageId (find (fun p => name p =? rawName raw) cached))
    eqn:C; [left; discriminate|].
  destruct (imageHost env
              (normalizeImageUrl ("https:" ++ rawMainImage raw)%string))
    eqn:Hh; [right; discriminate|].
  exfalso.
  destruct (fetchLoop_throws extname env cached raw (map Some raws)
              (in_map Some raws raw Hin) C Hh i acc w) as (e & He).
  congruence.
Qed.

(** What a fetch that returns records wrote. *)
Lemma fetchProducts_written (env : Env) (w : World)
    (cached cur : list product) :
  storeOf w = Some cached ->
  result (fetched env w) = Ret cur ->
  cur <> [] ->
  exists raws,
    cur = recordsOf env cached 0 raws
    /\ written (trace (fetched env w)) = filesOf extname env cached 0 raws.
Proof.
  intros Hs Hr Hne.
  destruct (fetchProducts_shape extname env w cached cur Hs Hr)
    as [-> | (raws & Hl & Hc & _)]; [congruence|].
  exists raws. split; [assumption|].
  rewrite (fetchProducts_listed extname env w _ cached Hl Hs) in *.
  assert (F : Forall (resolvable env cached) raws).
  { destruct (fetchLoop extname env cached (map Some raws) 0 [] w)
      as [[[ps|e] w'] t] eqn:E.
    - apply (fetchLoop_resolvable env cached raws 0 [] ps w).
      now rewrite E.
    - inversion Hr. congruence. }
  destruct (fetchLoop_success extname env cached raws F 0 [] w)
    as (w' & t & E & W).
  now rewrite E.
Qed.

Lemma filesOf_records (env : Env) (cached : list product)
    (raws : list rawFields) (f : string) :
  forall i, In f (filesOf extname env cached i raws) ->
    exists p id url,
      In p (recordsOf env cached i raws)
      /\ imageId p = Some id /\ imageUrl p = Some url
      /\ f = (id ++ extname url)%string.
Proof.
  induction raws as [|raw rest IH]; intros i H; [destruct H|].
  cbn [filesOf recordsOf] in *.
  assert (K : In f (filesOf extname env cached (S i) rest) ->
              exists p id url,
                In p (productOf raw (idFor env cached i raw)
                        :: recordsOf env cached (S i) rest)
                /\ imageId p = Some id /\ imageUrl p = Some url
                /\ f = (id ++ extname url)%string).
  { intros H'. destruct (IH _ H') as (p & id & url & Hp & R).
    exists p, id, url. split; [now right | assumption]. }
  unfold idFor in *.
  destruct (cachedImageId (find (fun p => name p =? rawName raw) cached));
    [now apply K|].
  destruct H as [<-|H]; [|now apply K].
  exists (productOf raw (randomHex16 (entropy env i))),
         (randomHex16 (entropy env i)), (urlOf raw).
  split; [now left|]. now repeat split.
Qed.

(** Start-up in its three cases. *)
Lemma startup_cases (env : Env) (w : World) :
  (storeOf w = None -> startup extname env w = (Throw SyntaxError, w, []))
  /\ (forall cached, storeOf w = Some cached -> cached <> [] ->
        startup extname env w = cycle env w)
  /\ (storeOf w = Some [] ->
      startup extname env w = cycle env (mkWorld (cacheFile w) [])).
Proof.
  unfold startup, bind. rewrite cleanImages_run.
  split; [|split].
  - now intros ->.
  - intros cached -> Hne. destruct cached as [|c l]; [congruence|].
    now destruct (cycle env w) as [[r w2] t2].
  - intros ->.
    now destruct (cycle env (mkWorld (cacheFile w) [])) as [[r w2] t2].
Qed.

(** X17. Start-up removes image files only when the cache is empty: on
    a cache that holds records every image file is still there after the
    first cycle; on an empty cache the only files there after the first
    cycle are those this cycle wrote. *)
Theorem startup_clears_images_only_on_an_empty_cache (env : Env)
    (w : World) (f : string) :
  (forall cached, storeOf w = Some cached -> cached <> [] ->
     hasFile f w -> hasFile f (world (startup extname env w)))
  /\ (storeOf w = Some [] ->
      hasFile f (world (startup extname env w)) ->
      In f (written (trace (startup extname env w)))).
Proof.
  destruct (startup_cases env w) as (_ & S1 & S2). split.
  - intros cached Hs Hne Hf. rewrite (S1 cached Hs Hne).
    destruct (cycle_files extname env w) as (I & _).
    destruct (fetchProducts_files extname env w) as (_ & _ & F & _).
    unfold hasFile in *. rewrite I. now apply F.
  - intros Hs Hf. rewrite (S2 Hs) in *.
    set (w0 := mkWorld (cacheFile w) []) in *.
    destruct (cycle_files extname env w0) as (I & W & _).
    unfold hasFile in Hf. rewrite I in Hf. rewrite W.
    now destruct (fetchProducts_files_exact env w0 f Hf) as [[]|Hin].
Qed.

(** X18. After a start-up on an empty cache whose first cycle saves
    records, the images directory holds no stray file: every file in it
    is the image of a saved record, named by its [imageId] followed by
    the extension of its image url. *)
Theorem startup_leaves_no_stray_image (env : Env) (w : World) (f : string) :
  storeOf w = Some [] ->
  saved (trace (startup extname env w)) <> [] ->
  hasFile f (world (startup extname env w)) ->
  exists store p id url,
    storeOf (world (startup extname env w)) = Some store
    /\ In p store
    /\ imageId p = Some id /\ imageUrl p = Some url
    /\ f = (id ++ extname url)%string.
Proof.
  intros Hs Hsv Hf.
  assert (E : startup extname env w = cycle env (mkWorld (cacheFile w) [])).
  { unfold startup, bind. rewrite cleanImages_run, Hs.
    now destruct (cycle env (mkWorld (cacheFile w) [])) as [[r w2] t2]. }
  rewrite E in *. clear E.
  set (w0 := mkWorld (cacheFile w) []) in *.
  assert (Hs0 : storeOf w0 = Some []) by exact Hs.
  destruct (fetchProducts_inv extname env w0) as ((cur & Hcur) & _).
  destruct (cycle_summary extname env w0 [] cur Hcur Hs0)
    as (S & _ & V & _).
  rewrite newProducts_empty_cache in V.
  unfold freshOf in S. simpl in S. rewrite newProducts_empty_cache in S.
  assert (Hne : cur <> []).
  { intros ->. apply Hsv. exact V. }
  destruct (fetchProducts_written env w0 [] cur Hs0 Hcur Hne)
    as (raws & Hc & Hw).
  destruct (cycle_files extname env w0) as (I & _).
  unfold hasFile in Hf. rewrite I in Hf.
  destruct (fetchProducts_files_exact env w0 f Hf) as [[]|Hin].
  rewrite Hw in Hin.
  destruct (filesOf_records env [] raws f 0 Hin) as (p & id & url & Hp & R).
  exists cur, p, id, url. split; [exact S|]. split; [now rewrite Hc | exact R].
Qed.

End Startup.

(** ** [main.js] beside the script *)

Section MainJsTheorems.

Variable extname : string -> string.

Local Abbreviation cycle := (checkForNewProducts extname).
Local Abbreviation fetched := (fetchProducts extname).

Lemma mainjs_fetchLoop_some (env : Env) (cached : list product)
    (raw : rawFields) (rest : list element) (i : nat) (acc : list product) :
  MainJs.fetchLoop extname env cached (Some raw :: rest) i acc
  = (id <- resolveImage extname env cached i (rawName raw)
             (normalizeImageUrl ("https:" ++ rawMainImage raw)%string) ;;
     MainJs.fetchLoop extname env cached rest (S i)
       (acc ++ [MainJs.productOf raw id])).
Proof. reflexivity. Qed.

Lemma sameItem_productOf (raw : rawFields) (id : string) :
  sameItem (productOf raw id) (MainJs.productOf raw id).
Proof. now repeat split. Qed.

(** The two loops do the same and build records that agree. *)
Lemma mainjs_fetchLoop_agrees (env : Env) (cached : list product)
    (elements : list element) :
  forall (i : nat) (acc acc' : list product) (w : World),
    Forall2 sameItem acc acc' ->
    world (MainJs.fetchLoop extname env cached elements i acc' w)
    = world (fetchLoop extname env cached elements i acc w)
    /\ trace (MainJs.fetchLoop extname env cached elements i acc' w)
       = trace (fetchLoop extname env cached elements i acc w)
    /\ match result (fetchLoop extname env cached elements i acc w),
             result (MainJs.fetchLoop extname env cached elements i acc' w)
       with
       | Ret ps, Ret qs => Forall2 sameItem ps qs
       | Throw e, Throw e' => e = e'
       | _, _ => False
       end.
Proof.
  induction elements as [|el rest IH]; intros i acc acc' w Ha.
  - now repeat split.
  - destruct el as [raw|]; [|now repeat split].
    rewrite fetchLoop_some, mainjs_fetchLoop_some. unfold bind.
    destruct (resolveImage extname env cached i (rawName raw) _ w)
      as [[[id|e] w1] t1]; [|now repeat split].
    assert (Ha' : Forall2 sameItem (acc ++ [productOf raw id])
                          (acc' ++ [MainJs.productOf raw id])).
    { apply Forall2_app; [assumption|].
      constructor; [apply sameItem_productOf | constructor]. }
    specialize (IH (S i) _ _ w1 Ha').
    destruct (fetchLoop extname env cached rest (S i)
                (acc ++ [productOf raw id]) w1) as [[r w2] t2].
    destruct (MainJs.fetchLoop extname env cached rest (S i)
                (acc' ++ [MainJs.productOf raw id]) w1) as [[r' w2'] t2'].
    unfold world, trace, result in *. simpl in *.
    destruct IH as (-> & -> & IH). now repeat split.
Qed.

Lemma mainjs_fetch_run (env : Env) (w : World) :
  exists cur cur' wf tf,
    fetched env w = (Ret cur, wf, tf)
    /\ MainJs.fetchProducts extname env w = (Ret cur', wf, tf)
    /\ Forall2 sameItem cur cur'.
Proof.
  unfold fetchProducts, MainJs.fetchProducts, tryCatch.
  destruct (listing env) as [|[|] els];
    try (exists [], [], w, []; now repeat split).
  simpl. unfold bind.
  destruct (loadCache w) as [[[cached|e] w1] t1] eqn:L.
  2:{ simpl. eexists [], [], _, _. now repeat split. }
  pose proof (mainjs_fetchLoop_agrees env cached els 0 [] [] w1
                (Forall2_nil _)) as A.
  destruct (fetchLoop extname env cached els 0 [] w1) as [[r w2] t2].
  destruct (MainJs.fetchLoop extname env cached els 0 [] w1)
    as [[r' w2'] t2'].
  unfold world, trace, result in A. simpl in A.
  destruct A as (-> & -> & A).
  destruct r as [ps|e], r' as [qs|e']; try contradiction.
  - now exists ps, qs, w2, (t1 ++ t2).
  - simpl. eexists [], [], _, _. now repeat split.
Qed.

Lemma mainjs_notifyEach_run (env : Env) (products : list product) :
  forall (i : nat) (w : World),
    MainJs.notifyEach env i products w
    = (Ret (stampFrom env i products), w,
       map ENotify (stampFrom env i products)).
Proof.
  induction products as [|p rest IH]; intros i w; [reflexivity|].
  simpl. unfold bind, MainJs.notifyNewProduct, emit. rewrite IH.
  unfold ret. simpl. now rewrite app_nil_r.
Qed.

Lemma notified_map_ENotify (l : list product) :
  notified (map ENotify l) = l /\ saved (map ENotify l) = []
  /\ posted (map ENotify l) = [].
Proof.
  induction l as [|p l (IH1 & IH2 & IH3)]; [now repeat split|].
  simpl. now rewrite IH1, IH2, IH3.
Qed.

Lemma newProducts_sameItem (cached cur cur' : list product) :
  Forall2 sameItem cur cur' ->
  Forall2 sameItem (newProducts cur cached) (newProducts cur' cached).
Proof.
  induction 1 as [|p q l l' Hpq Hl IH]; [constructor|].
  unfold newProducts in *. simpl.
  assert (E : isNew cached p = isNew cached q).
  { unfold isNew. destruct Hpq as (-> & _). reflexivity. }
  rewrite E. destruct (isNew cached q); [constructor|]; assumption.
Qed.

Lemma sameItem_names (l l' : list product) :
  Forall2 sameItem l l' ->
  map name l = map name l' /\ map imageId l = map imageId l'
  /\ map price l = map price l'.
Proof.
  induction 1 as [|p q l l' (Hn & Hi & Hp & _) Hl (IH1 & IH2 & IH3)];
    [now repeat split|].
  simpl. now rewrite Hn, Hi, Hp, IH1, IH2, IH3.
Qed.

(** One cycle of [main.js]. *)
Lemma mainjs_cycle_run (env : Env) (w wf : World)
    (cached cur' : list product) (tf : list event) :
  MainJs.fetchProducts extname env w = (Ret cur', wf, tf) ->
  storeOf wf = Some cached ->
  MainJs.checkForNewProducts extname env w
  = let fresh := stampFrom env 0 (newProducts cur' cached) in
    match fresh with
    | [] => (Ret tt, wf, tf)
    | _ :: _ =>
        (Ret tt, mkWorld (Holds (cached ++ fresh)) (imagesDir wf),
         tf ++ map ENotify fresh ++ [ESave (cached ++ fresh)])
    end.
Proof.
  intros Hf Hs.
  unfold MainJs.checkForNewProducts, MainJs.detectAndNotify.
  unfold bind at 1. unfold bind at 1. rewrite Hf.
  unfold bind at 1. rewrite (loadCache_storeOf wf cached Hs).
  unfold bind. rewrite mainjs_notifyEach_run. unfold ret, persistNew.
  destruct (stampFrom env 0 (newProducts cur' cached)) as [|p l]; simpl.
  - now rewrite !app_nil_r.
  - unfold saveCache. rewrite ?app_nil_r, <- ?app_assoc. reflexivity.
Qed.

(** X19. The [fetchProducts] of [main.js] does what the one of the
    script does: it returns an array of the same length whose records
    have the same names, image identifiers and prices, it leaves the
    same files and it makes the same requests and writes. *)
Theorem mainjs_fetchProducts_agrees (env : Env) (w : World) :
  world (MainJs.fetchProducts extname env w) = world (fetched env w)
  /\ trace (MainJs.fetchProducts extname env w) = trace (fetched env w)
  /\ exists cur cur',
       result (fetched env w) = Ret cur
       /\ result (MainJs.fetchProducts extname env w) = Ret cur'
       /\ map name cur' = map name cur
       /\ map imageId cur' = map imageId cur
       /\ map price cur' = map price cur
       /\ Forall (fun q => imageUrl q = None) cur'.
Proof.
  destruct (mainjs_fetch_run env w) as (cur & cur' & wf & tf & F & F' & S).
  rewrite F, F'. repeat split. exists cur, cur'.
  destruct (sameItem_names cur cur' S) as (N & I & P).
  repeat split; try (symmetry; assumption).
  destruct (storeOf w) as [cached|] eqn:Es.
  - unfold MainJs.fetchProducts, tryCatch in F'.
    destruct (listing env) as [|[|] els];
      try (inversion F'; subst; constructor).
    simpl in F'. unfold bind in F'.
    rewrite (loadCache_storeOf w cached Es) in F'.
    assert (G : forall els i acc ps w0,
              Forall (fun q => imageUrl q = None) acc ->
              result (MainJs.fetchLoop extname env cached els i acc w0)
              = Ret ps ->
              Forall (fun q => imageUrl q = None) ps).
    { clear. induction els as [|el rest IH]; intros i acc ps w0 Ha H.
      - inversion H. now subst.
      - destruct el as [raw|]; [|discriminate H].
        rewrite mainjs_fetchLoop_some in H. unfold bind in H.
        destruct (resolveImage extname env cached i (rawName raw) _ w0)
          as [[[id|e] w1] t1]; [|discriminate H].
        apply (IH (S i) (acc ++ [MainJs.productOf raw id]) ps w1).
        + apply Forall_app. split; [assumption|]. now repeat constructor.
        + destruct (MainJs.fetchLoop extname env cached rest (S i)
                      (acc ++ [MainJs.productOf raw id]) w1)
            as [[r w2] t2].
          exact H. }
    specialize (G els 0 [] cur' w (Forall_nil _)).
    destruct (MainJs.fetchLoop extname env cached els 0 [] w)
      as [[[ps|e] w2] t2]; simpl in F'; inversion F'; subst.
    + now apply G.
    + constructor.
  - rewrite (fetchProducts_corrupt extname env w Es) in F.
    inversion F; subst. inversion S. constructor.
Qed.

(** X20. A cycle of [main.js] notifies every new record, stamped, on an
    empty cache as on any other, posts nothing, and appends the records
    notified to the cache; it saves only when there are such records. *)
Theorem mainjs_cycle_notifies_every_new_record (env : Env) (w : World)
    (cached : list product) :
  storeOf w = Some cached ->
  exists cur',
    result (MainJs.fetchProducts extname env w) = Ret cur'
    /\ notified (trace (MainJs.checkForNewProducts extname env w))
       = stampFrom env 0 (newProducts cur' cached)
    /\ posted (trace (MainJs.checkForNewProducts extname env w)) = []
    /\ storeOf (world (MainJs.checkForNewProducts extname env w))
       = Some (cached ++ stampFrom env 0 (newProducts cur' cached))
    /\ saved (trace (MainJs.checkForNewProducts extname env w))
       = match newProducts cur' cached with
         | [] => []
         | _ :: _ => [cached ++ stampFrom env 0 (newProducts cur' cached)]
         end.
Proof.
  intros Hs.
  destruct (mainjs_fetch_run env w) as (cur & cur' & wf & tf & F & F' & _).
  destruct (fetchProducts_inv extname env w) as (_ & Hw & Hn & Hv & _).
  destruct (fetchProducts_files extname env w) as (Hp & _).
  rewrite F in Hw, Hn, Hv, Hp. unfold world, trace in Hw, Hn, Hv, Hp.
  simpl in Hw, Hn, Hv, Hp.
  assert (Hs' : storeOf wf = Some cached)
    by (rewrite <- Hs; now apply storeOf_cacheFile).
  exists cur'. rewrite (mainjs_cycle_run env w wf cached cur' tf F' Hs'), F'.
  split; [reflexivity|]. cbv zeta.
  destruct (newProducts cur' cached) as [|p l]; cbn [stampFrom].
  - unfold trace, world. simpl. rewrite app_nil_r. now repeat split.
  - destruct (notified_map_ENotify
                (stamp (clock env 0) p :: stampFrom env 1 l))
      as (N1 & N2 & N3).
    unfold trace, world. cbn [fst snd].
    rewrite !notified_app, !posted_app, !saved_app, Hn, Hp, Hv, N1, N2, N3.
    simpl. rewrite app_nil_r. now repeat split.
Qed.

End MainJsTheorems.

(** ** The further properties on the sample data *)

Section MoreSamples.

Import Sample MoreSample.

Local Abbreviation cycle := (checkForNewProducts ext).
Local Abbreviation fetched := (fetchProducts ext).

Lemma fetchProducts_complete_witness :
  listing steadyEnv = Response true (map Some steadyRaws)
  /\ storeOf steadyWorld = Some [known]
  /\ Forall (resolvable steadyEnv [known]) steadyRaws
  /\ result (fetched steadyEnv steadyWorld)
     = Ret (recordsOf steadyEnv [known] 0 steadyRaws)
  /\ written (trace (fetched steadyEnv steadyWorld))
     = filesOf ext steadyEnv [known] 0 steadyRaws
  /\ map name (recordsOf steadyEnv [known] 0 steadyRaws)
     = map rawName steadyRaws.
Proof.
  assert (H1 : listing steadyEnv = Response true (map Some steadyRaws))
    by reflexivity.
  assert (H2 : storeOf steadyWorld = Some [known]) by reflexivity.
  assert (H3 : Forall (resolvable steadyEnv [known]) steadyRaws).
  { constructor; [left; vm_compute; discriminate|].
    constructor; [right; vm_compute; discriminate | constructor]. }
  repeat (split; [assumption|]).
  exact (fetchProducts_complete ext steadyEnv steadyWorld steadyRaws [known]
           H1 H2 H3).
Defined.

Lemma cached_imageId_is_reused_witness :
  storeOf steadyWorld = Some [known]
  /\ cachedImageId (find (fun p => name p =? "Kraken X60") [known])
     = Some "00aa"
  /\ downloadsOf "Kraken X60" (trace (cycle steadyEnv steadyWorld)) = 0
  /\ forall cur p, result (fetched steadyEnv steadyWorld) = Ret cur ->
       In p cur -> name p = "Kraken X60" -> imageId p = Some "00aa".
Proof.
  assert (H1 : storeOf steadyWorld = Some [known]) by reflexivity.
  assert (H2 : cachedImageId (find (fun p => name p =? "Kraken X60") [known])
               = Some "00aa") by (vm_compute; reflexivity).
  repeat (split; [assumption|]).
  exact (cached_imageId_is_reused ext steadyEnv steadyWorld [known]
           "Kraken X60" "00aa" H1 H2).
Defined.

Lemma cycle_keeps_image_files_witness :
  hasFile "old.png" staleWorld
  /\ hasFile "old.png" (world (cycle steadyEnv staleWorld)).
Proof.
  assert (H : hasFile "old.png" staleWorld) by (left; reflexivity).
  split; [exact H|].
  exact (proj1 (cycle_keeps_image_files ext steadyEnv staleWorld "old.png") H).
Defined.

Lemma unreadable_cache_stops_the_cycle_witness :
  storeOf corruptWorld = None
  /\ fetched steadyEnv corruptWorld = (Ret [], corruptWorld, [])
  /\ cycle steadyEnv corruptWorld = (Throw SyntaxError, corruptWorld, []).
Proof.
  assert (H : storeOf corruptWorld = None) by reflexivity.
  split; [exact H|].
  exact (unreadable_cache_stops_the_cycle ext steadyEnv corruptWorld H).
Defined.

Lemma unreadable_element_empties_the_fetch_witness :
  listing brokenEnv = Response true brokenListing
  /\ In None brokenListing
  /\ result (fetched brokenEnv steadyWorld) = Ret []
  /\ notified (trace (cycle brokenEnv steadyWorld)) = []
  /\ saved (trace (cycle brokenEnv steadyWorld)) = []
  /\ cacheFile (world (cycle brokenEnv steadyWorld)) = cacheFile steadyWorld.
Proof.
  assert (H1 : listing brokenEnv = Response true brokenListing)
    by reflexivity.
  assert (H2 : In None brokenListing) by (right; left; reflexivity).
  repeat (split; [assumption|]).
  exact (unreadable_element_empties_the_fetch ext brokenEnv steadyWorld
           brokenListing H1 H2).
Defined.

Lemma fetchProducts_all_or_nothing_witness :
  storeOf steadyWorld = Some [known]
  /\ result (fetched steadyEnv steadyWorld) = Ret steadyFetch
  /\ (steadyFetch = []
      \/ exists raws, listing steadyEnv = Response true (map Some raws)
                      /\ steadyFetch = recordsOf steadyEnv [known] 0 raws
                      /\ List.length steadyFetch = List.length raws).
Proof.
  assert (H1 : storeOf steadyWorld = Some [known]) by reflexivity.
  assert (H2 : result (fetched steadyEnv steadyWorld) = Ret steadyFetch)
    by (vm_compute; reflexivity).
  repeat (split; [assumption|]).
  exact (fetchProducts_all_or_nothing ext steadyEnv steadyWorld [known]
           steadyFetch H1 H2).
Defined.

Lemma store_is_append_only_witness :
  storeOf steadyWorld = Some [known]
  /\ exists fresh,
       storeOf (world (cycle steadyEnv steadyWorld)) = Some ([known] ++ fresh)
       /\ (forall p k, In p fresh -> In k [known] -> name k <> name p)
       /\ saved (trace (cycle steadyEnv steadyWorld))
          = match fresh with [] => [] | _ :: _ => [[known] ++ fresh] end.
Proof.
  assert (H : storeOf steadyWorld = Some [known]) by reflexivity.
  split; [exact H|].
  exact (store_is_append_only ext steadyEnv steadyWorld [known] H).
Defined.

Lemma cachedTime_is_set_when_notified_witness :
  storeOf steadyWorld = Some [known]
  /\ exists fresh,
       storeOf (world (cycle steadyEnv steadyWorld)) = Some ([known] ++ fresh)
       /\ ([known] = [] -> Forall (fun p => cachedTime p = None) fresh)
       /\ ([known] <> [] ->
           forall i p, nth_error fresh i = Some p ->
                       cachedTime p = Some (clock steadyEnv i)).
Proof.
  assert (H : storeOf steadyWorld = Some [known]) by reflexivity.
  split; [exact H|].
  exact (cachedTime_is_set_when_notified ext steadyEnv steadyWorld [known] H).
Defined.

Lemma known_products_are_never_notified_witness :
  storeOf steadyWorld = Some [known]
  /\ (exists more,
        storeOf (fst (cycles ext [steadyEnv; secondDraw] steadyWorld))
        = Some ([known] ++ more))
  /\ forall p k,
       In p (notified (snd (cycles ext [steadyEnv; secondDraw] steadyWorld)))
       -> In k [known] -> name k <> name p.
Proof.
  assert (H : storeOf steadyWorld = Some [known]) by reflexivity.
  split; [exact H|].
  exact (known_products_are_never_notified ext [steadyEnv; secondDraw]
           steadyWorld [known] H).
Defined.

Lemma fetched_products_are_notified_at_most_once_witness :
  storeOf steadyWorld = Some [known]
  /\ result (fetched steadyEnv steadyWorld) = Ret steadyFetch
  /\ In (talonWith id2) steadyFetch
  /\ (exists store k,
        storeOf (world (cycle steadyEnv steadyWorld)) = Some store
        /\ In k store /\ name k = name (talonWith id2))
  /\ forall q,
       In q (notified (snd (cycles ext [steadyEnv; steadyEnv]
                              (world (cycle steadyEnv steadyWorld))))) ->
       name q <> name (talonWith id2).
Proof.
  assert (H1 : storeOf steadyWorld = Some [known]) by reflexivity.
  assert (H2 : result (fetched steadyEnv steadyWorld) = Ret steadyFetch)
    by (vm_compute; reflexivity).
  assert (H3 : In (talonWith id2) steadyFetch) by (right; left; reflexivity).
  repeat (split; [assumption|]).
  exact (fetched_products_are_notified_at_most_once ext steadyEnv
           [steadyEnv; steadyEnv] steadyWorld [known] steadyFetch
           (talonWith id2) H1 H2 H3).
Defined.

Lemma normalizeImageUrl_drops_the_query_witness :
  noQuery "https://wcproducts.com/cdn/shop/files/talon_respimgsize.png" = true
  /\ normalizeImageUrl
       ("https://wcproducts.com/cdn/shop/files/talon_respimgsize.png"
        ++ String "?" "v=7")
     = normalizeImageUrl
         "https://wcproducts.com/cdn/shop/files/talon_respimgsize.png".
Proof.
  assert (H : noQuery
                "https://wcproducts.com/cdn/shop/files/talon_respimgsize.png"
              = true) by reflexivity.
  split; [exact H|].
  exact (proj2 normalizeImageUrl_drops_the_query _ "v=7" H).
Defined.

Lemma startup_clears_images_only_on_an_empty_cache_witness :
  storeOf keptWorld = Some [known]
  /\ [known] <> []
  /\ hasFile "old.png" keptWorld
  /\ hasFile "old.png" (world (startup ext steadyEnv keptWorld)).
Proof.
  assert (H1 : storeOf keptWorld = Some [known]) by reflexivity.
  assert (H2 : [known] <> []) by discriminate.
  assert (H3 : hasFile "old.png" keptWorld) by (left; reflexivity).
  repeat (split; [assumption|]).
  exact (proj1 (startup_clears_images_only_on_an_empty_cache
                  ext steadyEnv keptWorld "old.png") [known] H1 H2 H3).
Defined.

Lemma repeated_listing_is_a_no_op_witness :
  storeOf steadyWorld = Some [known]
  /\ result (fetched steadyEnv steadyWorld) = Ret steadyFetch
  /\ (forall n, In n (listedNames (listing secondDraw)) ->
                In n (map name steadyFetch))
  /\ notified (trace (cycle secondDraw (world (cycle steadyEnv steadyWorld))))
     = []
  /\ saved (trace (cycle secondDraw (world (cycle steadyEnv steadyWorld))))
     = []
  /\ cacheFile (world (cycle secondDraw (world (cycle steadyEnv steadyWorld))))
     = cacheFile (world (cycle steadyEnv steadyWorld)).
Proof.
  assert (H1 : storeOf steadyWorld = Some [known]) by reflexivity.
  assert (H2 : result (fetched steadyEnv steadyWorld) = Ret steadyFetch)
    by (vm_compute; reflexivity).
  assert (H3 : forall n, In n (listedNames (listing secondDraw)) ->
                         In n (map name steadyFetch)).
  { intros n [<-|[]]. left. reflexivity. }
  repeat (split; [assumption|]).
  exact (repeated_listing_is_a_no_op ext steadyEnv secondDraw steadyWorld
           [known] steadyFetch H1 H2 H3).
Defined.

Lemma startup_leaves_no_stray_image_witness :
  storeOf staleWorld = Some []
  /\ saved (trace (startup ext steadyEnv staleWorld)) <> []
  /\ hasFile (id1 ++ ".png") (world (startup ext steadyEnv staleWorld))
  /\ exists store p id url,
       storeOf (world (startup ext steadyEnv staleWorld)) = Some store
       /\ In p store
       /\ imageId p = Some id /\ imageUrl p = Some url
       /\ (id1 ++ ".png")%string = (id ++ ext url)%string.
Proof.
  assert (H1 : storeOf staleWorld = Some []) by reflexivity.
  assert (H2 : saved (trace (startup ext steadyEnv staleWorld)) <> [])
    by (vm_compute; discriminate).
  assert (H3 : hasFile (id1 ++ ".png")
                 (world (startup ext steadyEnv staleWorld)))
    by (vm_compute; right; left; reflexivity).
  repeat (split; [assumption|]).
  exact (startup_leaves_no_stray_image ext steadyEnv staleWorld
           (id1 ++ ".png") H1 H2 H3).
Defined.

Lemma mainjs_cycle_notifies_every_new_record_witness :
  storeOf emptyWorld = Some []
  /\ exists cur',
       result (MainJs.fetchProducts ext steadyEnv emptyWorld) = Ret cur'
       /\ notified (trace (MainJs.checkForNewProducts ext steadyEnv
                             emptyWorld))
          = stampFrom steadyEnv 0 (newProducts cur' [])
       /\ posted (trace (MainJs.checkForNewProducts ext steadyEnv
                           emptyWorld)) = []
       /\ storeOf (world (MainJs.checkForNewProducts ext steadyEnv
                            emptyWorld))
          = Some ([] ++ stampFrom steadyEnv 0 (newProducts cur' []))
       /\ saved (trace (MainJs.checkForNewProducts ext steadyEnv emptyWorld))
          = match newProducts cur' [] with
            | [] => []
            | _ :: _ => [[] ++ stampFrom steadyEnv 0 (newProducts cur' [])]
            end.
Proof.
  assert (H : storeOf emptyWorld = Some []) by reflexivity.
  split; [exact H|].
  exact (mainjs_cycle_notifies_every_new_record ext steadyEnv emptyWorld [] H).
Defined.

End MoreSamples.

(** ** The first run of [main.js] *)

Section FirstRun.

Import Sample.

(** C2. [main.js] does not keep the first run silent.  On no cache file
    and a listing of two products whose images can be had, its
    [fetchProducts] returns the two records and its [checkForNewProducts]
    hands both to [notifyNewProduct] before it saves them, where the
    Slack-enabled script, on the same input, notifies nothing and saves
    the two records. *)
Theorem mainjs_notifies_on_the_first_run :
  storeOf emptyWorld = Some []
  /\ result (MainJs.fetchProducts ext steadyEnv emptyWorld)
     = Ret [MainJs.productOf rawA id1; MainJs.productOf rawB id2]
  /\ notified (trace (MainJs.checkForNewProducts ext steadyEnv emptyWorld))
     = [stamp (clockOf 0) (MainJs.productOf rawA id1);
        stamp (clockOf 1) (MainJs.productOf rawB id2)]
  /\ storeOf (world (MainJs.checkForNewProducts ext steadyEnv emptyWorld))
     = Some [stamp (clockOf 0) (MainJs.productOf rawA id1);
             stamp (clockOf 1) (MainJs.productOf rawB id2)]
  /\ notified (trace (checkForNewProducts ext steadyEnv emptyWorld)) = []
  /\ storeOf (world (checkForNewProducts ext steadyEnv emptyWorld))
     = Some [krakenWith id1; talonWith id2].
Proof.
  split; [reflexivity|].
  repeat split; vm_compute; reflexivity.
Qed.

(** Without a record returned by the first fetch the identifier is not
    kept: when the image of another product of the first listing cannot
    be had, the first product is downloaded, nothing is saved, and the
    next cycle downloads it again. *)
Remark failed_first_cycle_downloads_again :
  result (fetchProducts ext (envOf [Some rawA; Some rawC] hostDownForC)
            emptyWorld) = Ret []
  /\ downloadsOf "Kraken X60"
       (trace (checkForNewProducts ext
                 (envOf [Some rawA; Some rawC] hostDownForC) emptyWorld)
        ++ trace (checkForNewProducts ext secondDraw
                    (world (checkForNewProducts ext
                              (envOf [Some rawA; Some rawC] hostDownForC)
                              emptyWorld))))
     = 2.
Proof. split; vm_compute; reflexivity. Qed.

End FirstRun.
